(** * Cloud-Storage: ownership-scoped object / metadata consistency

    A shallow embedding of the upload, list and delete handlers of the
    React components [FileUpload] and [FileList], of the key they build
    for the blob repository, and of the two Supabase backends they call
    (the [files] table with its row-level security policies and the
    [user-files] storage bucket with its object policies, both declared
    in the SQL migration). *)

From Stdlib Require Import ZArith Ascii String Sorting.Sorted Permutation.
From stdpp Require Import base decidable option list sorting strings pretty gmap.

Local Open Scope Z_scope.

(** ** JavaScript string primitives used by the components *)

Module Js.

(** [s.split(sep)] for a one-character separator: never empty, the
    pieces carry no separator, and an empty string gives [[""]]. *)
Fixpoint split (sep : ascii) (s : string) : list string :=
  match s with
  | EmptyString => [EmptyString]
  | String c s' =>
      if Ascii.eqb c sep then EmptyString :: split sep s'
      else match split sep s' with
           | [] => [String c EmptyString]
           | w :: ws => String c w :: ws
           end
  end.

(** [arr.pop()]: the last element, [undefined] on an empty array. *)
Definition pop (arr : list string) : option string := last arr.

(** Interpolation [`${v}`] of a [string | undefined]. *)
Definition interpolate (v : option string) : string :=
  match v with
  | Some s => s
  | None => "undefined"
  end.

(** [s.substring(n)]: the string without its first [n] characters. *)
Fixpoint substring (n : nat) (s : string) : string :=
  match n, s with
  | O, _ => s
  | S _, EmptyString => EmptyString
  | S n', String _ s' => substring n' s'
  end.

(** [a || b] on strings: the empty string is falsy. *)
Definition or_else (a b : string) : string :=
  match a with
  | EmptyString => b
  | _ => a
  end.

(** [s.endsWith(suffix)], as a proposition. *)
Definition ends_with (s suffix : string) : Prop :=
  ∃ prefix, s = prefix +:+ suffix.

(** A character occurs in a string. *)
Fixpoint occurs (c : ascii) (s : string) : bool :=
  match s with
  | EmptyString => false
  | String d s' => Ascii.eqb d c || occurs c s'
  end.

End Js.

(** ** Data model *)

(** The signed-in user of [useAuth()]; only [id] is read by the handlers. *)
Module User.
Record t := { id : string; email : string }.
End User.

(** The browser [File] chosen in the input element. *)
Module File.
Record t := {
  name : string;
  size : Z;
  type : string;
  content : list Byte.byte
}.
End File.

(** A row of table [files] ([FileRecord] on the client). [created_at] has a
    default but no NOT NULL constraint, hence the option. *)
Module FileRecord.
Record t := {
  id : string;
  user_id : string;
  filename : string;
  file_path : string;
  file_size : Z;
  mime_type : string;
  created_at : option Z
}.
End FileRecord.

(** ** Key generator (handleUpload, the three lines before the upload) *)

(** The two ambient sources read while a key is built: [Date.now()] and
    [Math.random().toString(36)]. *)
Record Entropy := { now : Z; random36 : string }.

Definition dot : ascii := "."%char.
Definition slash : ascii := "/"%char.

(** [selectedFile.name.split('.').pop()] *)
Definition fileExt (f : File.t) : option string :=
  Js.pop (Js.split dot (File.name f)).

(** [`${Date.now()}-${Math.random().toString(36).substring(7)}.${fileExt}`] *)
Definition fileName (e : Entropy) (f : File.t) : string :=
  pretty (now e) +:+ "-" +:+ Js.substring 7 (random36 e) +:+ "." +:+
  Js.interpolate (fileExt f).

(** [`${user.id}/${fileName}`] *)
Definition filePath (u : User.t) (e : Entropy) (f : File.t) : string :=
  User.id u +:+ "/" +:+ fileName e f.

(** [storage.foldername(name)] of the storage schema: the path segments
    of an object name without the last one (the file name itself). *)
Definition foldername (objname : string) : list string :=
  removelast (Js.split slash objname).

(** The first path segment of a key, [(storage.foldername(name))[1]] in
    the policies (SQL arrays start at 1; a missing element is NULL). *)
Definition first_segment (objname : string) : option string :=
  head (foldername objname).

(** Canonical text of a [uuid] value, the type of [auth.users.id] and of
    [files.user_id]: 8-4-4-4-12 lower-case hexadecimal digits. *)
Definition is_hex (c : ascii) : bool :=
  let n := N_of_ascii c in
  ((48 <=? n) && (n <=? 57) || (97 <=? n) && (n <=? 102))%N.

Fixpoint hex_run (n : nat) (s : string) : option string :=
  match n, s with
  | O, _ => Some s
  | S n', String c s' => if is_hex c then hex_run n' s' else None
  | S _, EmptyString => None
  end.

Fixpoint uuid_tail (groups : list nat) (s : string) : bool :=
  match groups, s with
  | [], EmptyString => true
  | n :: gs, String "-"%char s' =>
      match hex_run n s' with
      | Some rest => uuid_tail gs rest
      | None => false
      end
  | _, _ => false
  end.

Definition is_uuid (s : string) : bool :=
  match hex_run 8 s with
  | Some rest => uuid_tail [4; 4; 4; 12]%nat rest
  | None => false
  end.

(** ** The two backends *)

(** What the SDK hands back in [{ error }]. [instanceof_Error] is what
    [err instanceof Error] answers for it. *)
Record BackendError := { instanceof_Error : bool; message : string }.

(** [err instanceof Error ? err.message : fallback] *)
Definition message_or (err : BackendError) (fallback : string) : string :=
  if instanceof_Error err then message err else fallback.

(** The object literal passed to [.insert(...)]; [id] and [created_at]
    are left to the column defaults. *)
Module NewFile.
Record t := {
  user_id : string;
  filename : string;
  file_path : string;
  file_size : Z;
  mime_type : string
}.
End NewFile.

(** What the column defaults [gen_random_uuid()] and [now()] yield for
    one insert. *)
Record Defaults := { gen_random_uuid : string; db_now : Z }.

(** Requests that reach a backend. *)
Inductive Call :=
| StorageUpload (path : string)
| StorageRemove (paths : list string)
| DbInsert (row : NewFile.t)
| DbSelect (user_id : string)
| DbDelete (id : string).

(** Table [files] in heap order, the objects of bucket [user-files] by
    name, and the requests received so far (oldest first).
    [postgrest_is_Error] tells whether the installed SDK builds catalog
    errors as instances of [Error]; the storage SDK always does. *)
Record World := {
  files_table : list FileRecord.t;
  bucket : gmap string (list Byte.byte);
  calls : list Call;
  postgrest_is_Error : bool
}.

Definition log (c : Call) (w : World) : World :=
  {| files_table := files_table w; bucket := bucket w;
     calls := calls w ++ [c]; postgrest_is_Error := postgrest_is_Error w |}.

Definition with_table (t : list FileRecord.t) (w : World) : World :=
  {| files_table := t; bucket := bucket w;
     calls := calls w; postgrest_is_Error := postgrest_is_Error w |}.

Definition with_bucket (b : gmap string (list Byte.byte)) (w : World) : World :=
  {| files_table := files_table w; bucket := b;
     calls := calls w; postgrest_is_Error := postgrest_is_Error w |}.

Definition StorageError (msg : string) : BackendError :=
  {| instanceof_Error := true; message := msg |}.

Definition PostgrestError (w : World) (msg : string) : BackendError :=
  {| instanceof_Error := postgrest_is_Error w; message := msg |}.

(** *** Row-level security, from the migration *)

(** Policies on [files] ([FOR SELECT], [FOR INSERT], [FOR DELETE]), all
    [TO authenticated] with the predicate [auth.uid() = user_id]. *)
Definition files_policy (auth : option string) (owner : string) : bool :=
  bool_decide (auth = Some owner).

(** Policies on [storage.objects]: [bucket_id = 'user-files' AND
    (storage.foldername(name))[1] = auth.uid()::text]. *)
Definition objects_policy (auth : option string) (objname : string) : bool :=
  match auth with
  | Some uid => bool_decide (first_segment objname = Some uid)
  | None => false
  end.

(** *** ORDER BY created_at DESC *)

(** [r1] may stand before [r2]: later timestamps first, NULLs before all
    (the default for DESC). Nothing else is compared. *)
Definition created_desc (r1 r2 : FileRecord.t) : Prop :=
  match FileRecord.created_at r1, FileRecord.created_at r2 with
  | None, _ => True
  | Some _, None => False
  | Some t1, Some t2 => t2 ≤ t1
  end.

#[global] Instance created_desc_dec : RelDecision created_desc.
Proof.
  intros r1 r2. unfold created_desc.
  destruct (FileRecord.created_at r1), (FileRecord.created_at r2);
    try apply _.
Defined.

(** *** supabase.storage.from('user-files') *)
Module Storage.

(** [.upload(path, file, { upsert: false })] *)
Definition upload (auth : option string) (path : string) (f : File.t)
    (fault : option BackendError) (w : World) : option BackendError * World :=
  let w := log (StorageUpload path) w in
  match fault with
  | Some e => (Some e, w)
  | None =>
      if negb (objects_policy auth path) then
        (Some (StorageError "new row violates row-level security policy"), w)
      else match bucket w !! path with
           | Some _ => (Some (StorageError "The resource already exists"), w)
           | None => (None, with_bucket (<[path := File.content f]> (bucket w)) w)
           end
  end.

(** [.remove(paths)]: objects the DELETE policy hides are skipped
    silently, and so are names that do not exist. *)
Definition remove (auth : option string) (paths : list string)
    (fault : option BackendError) (w : World) : option BackendError * World :=
  let w := log (StorageRemove paths) w in
  match fault with
  | Some e => (Some e, w)
  | None =>
      let allowed := filter (λ p, objects_policy auth p) paths in
      (None, with_bucket (foldr delete (bucket w) allowed) w)
  end.

End Storage.

(** *** supabase.from('files') *)
Module Db.

(** [.insert(row)] *)
Definition insert (auth : option string) (row : NewFile.t) (d : Defaults)
    (fault : option BackendError) (w : World) : option BackendError * World :=
  let w := log (DbInsert row) w in
  match fault with
  | Some e => (Some e, w)
  | None =>
      if negb (files_policy auth (NewFile.user_id row)) then
        (Some (PostgrestError w "new row violates row-level security policy"), w)
      else if bool_decide (gen_random_uuid d ∈ FileRecord.id <$> files_table w) then
        (Some (PostgrestError w "duplicate key value violates unique constraint"), w)
      else
        let r := {| FileRecord.id := gen_random_uuid d;
                    FileRecord.user_id := NewFile.user_id row;
                    FileRecord.filename := NewFile.filename row;
                    FileRecord.file_path := NewFile.file_path row;
                    FileRecord.file_size := NewFile.file_size row;
                    FileRecord.mime_type := NewFile.mime_type row;
                    FileRecord.created_at := Some (db_now d) |} in
        (None, with_table (files_table w ++ [r]) w)
  end.

(** Rows a SELECT or DELETE of [auth] can see. *)
Definition visible (auth : option string) (r : FileRecord.t) : bool :=
  files_policy auth (FileRecord.user_id r).

(** [.select('*').eq('user_id', uid).order('created_at', { ascending: false })] *)
Definition select_eq_user_id_order (auth : option string) (uid : string)
    (fault : option BackendError) (w : World)
    : (option (list FileRecord.t) * option BackendError) * World :=
  let w := log (DbSelect uid) w in
  match fault with
  | Some e => ((None, Some e), w)
  | None =>
      let rows := filter (λ r, visible auth r ∧ FileRecord.user_id r = uid)
                         (files_table w) in
      ((Some (merge_sort created_desc rows), None), w)
  end.

(** [.delete().eq('id', id)] *)
Definition delete_eq_id (auth : option string) (id : string)
    (fault : option BackendError) (w : World) : option BackendError * World :=
  let w := log (DbDelete id) w in
  match fault with
  | Some e => (Some e, w)
  | None =>
      (None, with_table (filter (λ r, ¬ (visible auth r ∧ FileRecord.id r = id))
                                (files_table w)) w)
  end.

End Db.

(** ** Handlers as stateful, throwing computations *)

(** An async handler runs over its component's view state [C] and the
    backends; it returns or throws the error it was handed. *)
Inductive Outcome (A : Type) :=
| Returned (a : A)
| Thrown (e : BackendError).
Arguments Returned {A} a.
Arguments Thrown {A} e.

Definition M (C A : Type) : Type := C * World → Outcome A * (C * World).

#[global] Instance M_ret {C} : MRet (M C) := λ A a s, (Returned a, s).

#[global] Instance M_bind {C} : MBind (M C) := λ A B f m s,
  match m s with
  | (Returned a, s') => f a s'
  | (Thrown e, s') => (Thrown e, s')
  end.

Section Effects.
Context {C : Type}.

(** [throw e] *)
Definition throw {A} (e : BackendError) : M C A := λ s, (Thrown e, s).

(** [if (error) throw error] *)
Definition throw_if (error : option BackendError) : M C unit :=
  match error with
  | Some e => throw e
  | None => mret ()
  end.

(** [try { body } catch (err) { handler }] *)
Definition try_catch {A} (body : M C A) (handler : BackendError → M C A) : M C A :=
  λ s, match body s with
       | (Thrown e, s') => handler e s'
       | r => r
       end.

(** [try { body } finally { fin }] *)
Definition try_finally {A} (body : M C A) (fin : M C unit) : M C A :=
  λ s, let '(o, s') := body s in
       match fin s' with
       | (Returned _, s'') => (o, s'')
       | (Thrown e, s'') => (Thrown e, s'')
       end.

(** A [setState] of the component. *)
Definition set_view (f : C → C) : M C unit := λ s, (Returned (), (f s.1, s.2)).

(** [await] of a backend request. *)
Definition await {A} (req : World → A * World) : M C A :=
  λ s, let '(a, w') := req s.2 in (Returned a, (s.1, w')).

End Effects.

(** *** FileUpload *)
Module FileUpload.

(** [onUploadComplete] is counted; [input_value] is the value of the
    file input behind [fileInputRef]. *)
Record view := {
  selectedFile : option File.t;
  uploading : bool;
  error : string;
  input_value : string;
  onUploadComplete : nat
}.

Definition initial : view :=
  {| selectedFile := None; uploading := false; error := "";
     input_value := ""; onUploadComplete := 0 |}.

Definition setSelectedFile (f : option File.t) (v : view) : view :=
  {| selectedFile := f; uploading := uploading v; error := error v;
     input_value := input_value v; onUploadComplete := onUploadComplete v |}.

Definition setUploading (b : bool) (v : view) : view :=
  {| selectedFile := selectedFile v; uploading := b; error := error v;
     input_value := input_value v; onUploadComplete := onUploadComplete v |}.

Definition setError (e : string) (v : view) : view :=
  {| selectedFile := selectedFile v; uploading := uploading v; error := e;
     input_value := input_value v; onUploadComplete := onUploadComplete v |}.

Definition clearInput (v : view) : view :=
  {| selectedFile := selectedFile v; uploading := uploading v; error := error v;
     input_value := ""; onUploadComplete := onUploadComplete v |}.

Definition callOnUploadComplete (v : view) : view :=
  {| selectedFile := selectedFile v; uploading := uploading v; error := error v;
     input_value := input_value v; onUploadComplete := S (onUploadComplete v) |}.

(** [50 * 1024 * 1024] *)
Definition max_size : Z := 50 * 1024 * 1024.

(** [handleFileSelect]: [picked] is [e.target.files?.[0]]. *)
Definition handleFileSelect (picked : option File.t) : M view unit :=
  match picked with
  | Some file =>
      if File.size file >? max_size then
        set_view (setError "File size must be less than 50MB")
      else
        set_view (setSelectedFile (Some file));;
        set_view (setError "")
  | None => mret ()
  end.

(** The object handed to [.insert(...)] by [handleUpload]. *)
Definition row (user : User.t) (filePath : string) (selectedFile : File.t)
    : NewFile.t :=
  {| NewFile.user_id := User.id user;
     NewFile.filename := File.name selectedFile;
     NewFile.file_path := filePath;
     NewFile.file_size := File.size selectedFile;
     NewFile.mime_type :=
       Js.or_else (File.type selectedFile) "application/octet-stream" |}.

(** [handleUpload], closed over the [selectedFile] and [user] of the
    render it was created in. *)
Definition handleUpload (selectedFile : option File.t) (user : option User.t)
    (e : Entropy) (d : Defaults)
    (uploadFault dbFault : option BackendError) : M view unit :=
  match selectedFile, user with
  | Some selectedFile, Some user =>
      set_view (setUploading true);;
      set_view (setError "");;
      try_finally
        (try_catch
           (let filePath := filePath user e selectedFile in
            uploadError ← await (Storage.upload (Some (User.id user)) filePath
                                                selectedFile uploadFault);
            throw_if uploadError;;
            dbError ← await (Db.insert (Some (User.id user))
                                       (row user filePath selectedFile)
                                       d dbFault);
            throw_if dbError;;
            set_view (setSelectedFile None);;
            set_view clearInput;;
            set_view callOnUploadComplete)
           (λ err,
              set_view (setError (message_or err "Failed to upload file"))))
        (set_view (setUploading false))
  | _, _ => mret ()
  end.

(** The button's click: the handler of the current render. *)
Definition clickUpload (user : option User.t) (e : Entropy) (d : Defaults)
    (uploadFault dbFault : option BackendError) : M view unit :=
  λ s, handleUpload (selectedFile s.1) user e d uploadFault dbFault s.

(** [clearSelection] *)
Definition clearSelection : M view unit :=
  set_view (setSelectedFile None);;
  set_view (setError "");;
  set_view clearInput.

(** What can happen to the mounted component: a change of the file
    input, a click on the upload button, a click on the clear button. *)
Inductive event :=
| Pick (picked : option File.t)
| Click (user : option User.t) (e : Entropy) (d : Defaults)
        (uploadFault dbFault : option BackendError)
| Clear.

Definition react (ev : event) : M view unit :=
  match ev with
  | Pick picked => handleFileSelect picked
  | Click user e d uploadFault dbFault => clickUpload user e d uploadFault dbFault
  | Clear => clearSelection
  end.

Fixpoint run (evs : list event) (s : view * World) : view * World :=
  match evs with
  | [] => s
  | ev :: evs' => run evs' (react ev s).2
  end.

End FileUpload.

(** *** FileList *)
Module FileList.

(** [alert] messages are collected and [onRefresh] is counted. *)
Record view := {
  files : list FileRecord.t;
  loading : bool;
  error : string;
  alerts : list string;
  onRefresh : nat
}.

Definition initial : view :=
  {| files := []; loading := true; error := ""; alerts := []; onRefresh := 0 |}.

Definition setFiles (l : list FileRecord.t) (v : view) : view :=
  {| files := l; loading := loading v; error := error v;
     alerts := alerts v; onRefresh := onRefresh v |}.

Definition setLoading (b : bool) (v : view) : view :=
  {| files := files v; loading := b; error := error v;
     alerts := alerts v; onRefresh := onRefresh v |}.

Definition setError (e : string) (v : view) : view :=
  {| files := files v; loading := loading v; error := e;
     alerts := alerts v; onRefresh := onRefresh v |}.

Definition alert (msg : string) (v : view) : view :=
  {| files := files v; loading := loading v; error := error v;
     alerts := alerts v ++ [msg]; onRefresh := onRefresh v |}.

Definition callOnRefresh (v : view) : view :=
  {| files := files v; loading := loading v; error := error v;
     alerts := alerts v; onRefresh := S (onRefresh v) |}.

(** [loadFiles] *)
Definition loadFiles (user : option User.t)
    (fault : option BackendError) : M view unit :=
  match user with
  | None => mret ()
  | Some user =>
      try_finally
        (try_catch
           (set_view (setLoading true);;
            '(data, error) ← await (Db.select_eq_user_id_order
                                      (Some (User.id user)) (User.id user) fault);
            throw_if error;;
            set_view (setFiles (default [] data)))
           (λ err,
              set_view (setError (message_or err "Failed to load files"))))
        (set_view (setLoading false))
  end.

(** [handleDelete]: [confirmed] is the answer to the [confirm] dialog;
    the client's session is that of the [user] of [useAuth()]. *)
Definition handleDelete (user : option User.t) (file : FileRecord.t)
    (confirmed : bool)
    (storageFault dbFault : option BackendError) : M view unit :=
  if negb confirmed then mret ()
  else
    try_catch
      (storageError ← await (Storage.remove (User.id <$> user)
                                            [FileRecord.file_path file]
                                            storageFault);
       throw_if storageError;;
       dbError ← await (Db.delete_eq_id (User.id <$> user)
                                        (FileRecord.id file) dbFault);
       throw_if dbError;;
       set_view callOnRefresh)
      (λ err, set_view (alert "Failed to delete file")).

End FileList.

(** ** Views and worlds the statements refer to *)

(** The view a failed upload ends in. *)
Definition upload_failed_view (v : FileUpload.view) (err : BackendError)
    : FileUpload.view :=
  FileUpload.setUploading false
    (FileUpload.setError (message_or err "Failed to upload file")
       (FileUpload.setError "" (FileUpload.setUploading true v))).

(** The view a successful upload ends in. *)
Definition upload_done_view (v : FileUpload.view) : FileUpload.view :=
  FileUpload.setUploading false
    (FileUpload.callOnUploadComplete
       (FileUpload.clearInput
          (FileUpload.setSelectedFile None
             (FileUpload.setError "" (FileUpload.setUploading true v))))).

(** The world once the blob delete has gone through. *)
Definition blob_removed (auth : option string) (path : string) (w : World)
    : World :=
  with_bucket
    (foldr delete (bucket (log (StorageRemove [path]) w))
           (filter (λ p, objects_policy auth p) [path]))
    (log (StorageRemove [path]) w).

(** The rows the query of [loadFiles] answers with, for a session [auth]
    and a filter value [uid]. *)
Definition listed (auth : option string) (uid : string) (w : World)
    : list FileRecord.t :=
  merge_sort created_desc
    (filter (λ r, Db.visible auth r ∧ FileRecord.user_id r = uid) (files_table w)).

(** What [ORDER BY created_at DESC] promises of an answer [out] over the
    selected [rows]: the same rows, each once, later timestamps first. *)
Definition admissible_answer (rows out : list FileRecord.t) : Prop :=
  out ≡ₚ rows ∧ Sorted created_desc out.

(** A row is created by an upload of [b] when some run of [b]'s upload
    handler adds it to the catalog. *)
Definition created_by_upload (b : User.t) (r : FileRecord.t) : Prop :=
  ∃ f e d uf df v w,
    (r ∉ files_table w) ∧
    r ∈ files_table
          (FileUpload.handleUpload (Some f) (Some b) e d uf df (v, w)).2.2.

(** The order the specification words ask of a listing: [created_at]
    descending, and for equal [created_at] the [id] descending. *)
Definition spec_listing_order (r1 r2 : FileRecord.t) : Prop :=
  match FileRecord.created_at r1, FileRecord.created_at r2 with
  | Some t1, Some t2 =>
      t2 < t1 ∨ (t1 = t2 ∧ String.le (FileRecord.id r2) (FileRecord.id r1))
  | None, None => String.le (FileRecord.id r2) (FileRecord.id r1)
  | None, Some _ => True
  | Some _, None => False
  end.

(** ** The rest of the components *)

(** *** FileList: download, rendering *)

(** [.download(path)] on the bucket: the SELECT policy on
    [storage.objects] hides what lies outside the caller's folder, and a
    hidden or missing object is answered with an error. A read: the
    backends stay as they are. *)
Definition storage_download (auth : option string) (path : string)
    (fault : option BackendError) (w : World)
    : option (list Byte.byte) * option BackendError :=
  match fault with
  | Some e => (None, Some e)
  | None =>
      if objects_policy auth path then
        match bucket w !! path with
        | Some blob => (Some blob, None)
        | None => (None, Some (StorageError "Object not found"))
        end
      else (None, Some (StorageError "Object not found"))
  end.

(** What the browser saved through clicks on generated anchors: the
    [download] attribute and the bytes behind the object URL. *)
Definition Saved : Type := list (string * list Byte.byte).

(** [handleDownload]; [URL.createObjectURL(null)] throws a TypeError. *)
Definition handleDownload (user : option User.t) (file : FileRecord.t)
    (fault : option BackendError) : M (FileList.view * Saved) unit :=
  try_catch
    ('(data, error) ← await (λ w, (storage_download (User.id <$> user)
                                     (FileRecord.file_path file) fault w, w));
     throw_if error;;
     match data with
     | Some blob =>
         set_view (λ c, (c.1, c.2 ++ [(FileRecord.filename file, blob)]))
     | None => throw (StorageError "TypeError")
     end)
    (λ err, set_view (λ c, (FileList.alert "Failed to download file" c.1, c.2))).

(** [x.toFixed(1)] of the Number [num / den], for [0 ≤ num] and [den] a
    power of two (the division is then exact in double precision below
    2^53): the nearest tenth, the larger one on a tie. *)
Definition toFixed1 (num den : Z) : string :=
  let n := (20 * num + den) / (2 * den) in
  pretty (n / 10) +:+ "." +:+ pretty (n mod 10).

(** [formatFileSize] *)
Definition formatFileSize (bytes : Z) : string :=
  if bytes <? 1024 then pretty bytes +:+ " B"
  else if bytes <? 1024 * 1024 then toFixed1 bytes 1024 +:+ " KB"
  else toFixed1 bytes (1024 * 1024) +:+ " MB".

(** What [FileList] returns: one of three early panels, or the table
    with its heading count and one entry per file (keyed by [file.id]). *)
Inductive Screen :=
| Skeleton
| ErrorPanel (msg : string)
| EmptyState
| FileTable (count : string) (entries : list FileRecord.t).

(** [`${files.length} file${files.length !== 1 ? 's' : ''}`] *)
Definition count_text (files : list FileRecord.t) : string :=
  pretty (length files) +:+ " file" +:+
  (if bool_decide (length files ≠ 1%nat) then "s" else "").

(** The body of [FileList] after its hooks; a non-empty string is truthy. *)
Definition render (v : FileList.view) : Screen :=
  if FileList.loading v then Skeleton
  else match FileList.error v with
       | String _ _ => ErrorPanel (FileList.error v)
       | EmptyString =>
           match FileList.files v with
           | [] => EmptyState
           | _ => FileTable (count_text (FileList.files v)) (FileList.files v)
           end
       end.

(** Reading the component's current state. *)
Definition read_view {C} : M C C := λ s, (Returned s.1, s).

(** *** Dashboard *)
Module Dashboard.

(** The state of [Dashboard] and of its two children, and what the
    browser saved. *)
Record state := {
  refreshTrigger : nat;
  upload : FileUpload.view;
  list : FileList.view;
  saved : Saved
}.

Definition initial : state :=
  {| refreshTrigger := 0; upload := FileUpload.initial;
     list := FileList.initial; saved := [] |}.

Definition setRefreshTrigger (f : nat → nat) (s : state) : state :=
  {| refreshTrigger := f (refreshTrigger s); upload := upload s;
     list := list s; saved := saved s |}.

Definition with_upload (v : FileUpload.view) (s : state) : state :=
  {| refreshTrigger := refreshTrigger s; upload := v;
     list := list s; saved := saved s |}.

Definition with_list (v : FileList.view) (s : state) : state :=
  {| refreshTrigger := refreshTrigger s; upload := upload s;
     list := v; saved := saved s |}.

Definition with_list_saved (c : FileList.view * Saved) (s : state) : state :=
  {| refreshTrigger := refreshTrigger s; upload := upload s;
     list := c.1; saved := c.2 |}.

(** A child's handler, run on the child's part of the state. *)
Definition child {C A} (get : state → C) (set : C → state → state)
    (m : M C A) : M state A :=
  λ s, let '(o, (c, w)) := m (get s.1, s.2) in (o, (set c s.1, w)).

(** [useEffect(() => { loadFiles(); }, [refreshTrigger])] of [FileList] *)
Definition effect (user : option User.t) (fault : option BackendError)
    : M state unit :=
  child list with_list (FileList.loadFiles user fault).

(** [handleUploadComplete] and [handleRefresh], both
    [setRefreshTrigger((prev) => prev + 1)], for the [times] the child
    called its callback; the changed trigger re-runs the effect. *)
Definition refreshed (times : nat) (user : option User.t)
    (fault : option BackendError) : M state unit :=
  match times with
  | O => mret ()
  | S _ =>
      set_view (setRefreshTrigger (λ prev, (prev + times)%nat));;
      effect user fault
  end.

(** What can happen to the mounted dashboard of [user]; [listFault] is
    the fault of the list query an event may lead to. *)
Inductive event :=
| Mount (listFault : option BackendError)
| Pick (picked : option File.t)
| Upload (e : Entropy) (d : Defaults)
         (uploadFault dbFault listFault : option BackendError)
| Clear
| Download (file : FileRecord.t) (fault : option BackendError)
| Delete (file : FileRecord.t) (confirmed : bool)
         (storageFault dbFault listFault : option BackendError).

Definition react (user : option User.t) (ev : event) : M state unit :=
  match ev with
  | Mount listFault => effect user listFault
  | Pick picked => child upload with_upload (FileUpload.handleFileSelect picked)
  | Upload e d uploadFault dbFault listFault =>
      before ← read_view;
      child upload with_upload
            (FileUpload.clickUpload user e d uploadFault dbFault);;
      after ← read_view;
      refreshed (FileUpload.onUploadComplete (upload after)
                 - FileUpload.onUploadComplete (upload before))%nat
                user listFault
  | Clear => child upload with_upload FileUpload.clearSelection
  | Download file fault =>
      child (λ s, (list s, saved s)) with_list_saved
            (handleDownload user file fault)
  | Delete file confirmed storageFault dbFault listFault =>
      before ← read_view;
      child list with_list
            (FileList.handleDelete user file confirmed storageFault dbFault);;
      after ← read_view;
      refreshed (FileList.onRefresh (list after)
                 - FileList.onRefresh (list before))%nat
                user listFault
  end.

Fixpoint run (user : option User.t) (evs : Datatypes.list event)
    (s : state * World) : state * World :=
  match evs with
  | [] => s
  | ev :: evs' => run user evs' (react user ev s).2
  end.

End Dashboard.

(** ** Invariants the statements refer to *)

(** The primary key of [files]: no two rows share an [id]. *)
Definition primary_key (w : World) : Prop :=
  NoDup (FileRecord.id <$> files_table w).

(** Every catalog row has a blob under its key. *)
Definition references_valid (w : World) : Prop :=
  ∀ r, r ∈ files_table w → is_Some (bucket w !! FileRecord.file_path r).

(** Decimal digits, as [Date.now()] prints them. *)
Definition is_digit (c : ascii) : bool :=
  let n := N_of_ascii c in ((48 <=? n) && (n <=? 57))%N.

Fixpoint all_digits (s : string) : bool :=
  match s with
  | EmptyString => true
  | String c s' => is_digit c && all_digits s'
  end.

(** Every catalog row's key lies in the folder of the row's owner. *)
Definition keyed_in_owner_folder (w : World) : Prop :=
  ∀ r, r ∈ files_table w →
       first_segment (FileRecord.file_path r) = Some (FileRecord.user_id r).

(** The backend requests a dashboard with the session [auth] can
    cause, as steps on the world. An insert only ever follows a blob
    write under the same key, which the storage policy has let through. *)
Inductive backend_step (auth : option string) (w : World) : World → Prop :=
| step_select uid fault :
    backend_step auth w (Db.select_eq_user_id_order auth uid fault w).2
| step_upload path f fault :
    backend_step auth w (Storage.upload auth path f fault w).2
| step_insert row d fault :
    objects_policy auth (NewFile.file_path row) = true →
    backend_step auth w (Db.insert auth row d fault w).2
| step_remove paths fault :
    backend_step auth w (Storage.remove auth paths fault w).2
| step_delete id fault :
    backend_step auth w (Db.delete_eq_id auth id fault w).2.

(** ** Sample data *)

Definition alice : User.t :=
  {| User.id := "3f2b8c1e-7a44-4d0b-9c55-0a1b2c3d4e5f"; User.email := "alice@example.org" |}.

Definition bob : User.t :=
  {| User.id := "9d1c0e2a-5b66-4f3a-8e77-1b2c3d4e5f60"; User.email := "bob@example.org" |}.

Definition empty_world : World :=
  {| files_table := []; bucket := ∅; calls := []; postgrest_is_Error := true |}.

Definition entropy0 : Entropy := {| now := 1700000000000; random36 := "0.4fzyo82mvyr" |}.

Definition defaults0 : Defaults :=
  {| gen_random_uuid := "00000000-0000-4000-8000-000000000001"; db_now := 1000 |}.

Definition file_of_size (n : Z) : File.t :=
  {| File.name := "video.mp4"; File.size := n; File.type := "video/mp4";
     File.content := [] |}.

Definition readme : File.t :=
  {| File.name := "README"; File.size := 3; File.type := "";
     File.content := [Byte.x78; Byte.x79; Byte.x7a] |}.

Definition unnamed_file : File.t :=
  {| File.name := ""; File.size := 3; File.type := "";
     File.content := [Byte.x78; Byte.x79; Byte.x7a] |}.

Definition photo : File.t :=
  {| File.name := "photo.png"; File.size := 3; File.type := "image/png";
     File.content := [Byte.x78; Byte.x79; Byte.x7a] |}.

Definition catalog_down : BackendError :=
  {| instanceof_Error := true; message := "connection refused" |}.

Definition storage_down : BackendError :=
  {| instanceof_Error := true; message := "storage unavailable" |}.

Definition row_of (id owner path : string) (t : Z) : FileRecord.t :=
  {| FileRecord.id := id; FileRecord.user_id := owner;
     FileRecord.filename := "notes.txt"; FileRecord.file_path := path;
     FileRecord.file_size := 3; FileRecord.mime_type := "text/plain";
     FileRecord.created_at := Some t |}.

Definition alice_row1 : FileRecord.t :=
  row_of "00000000-0000-4000-8000-000000000001" (User.id alice)
         "3f2b8c1e-7a44-4d0b-9c55-0a1b2c3d4e5f/1-a.txt" 1000.

Definition alice_row2 : FileRecord.t :=
  row_of "00000000-0000-4000-8000-000000000002" (User.id alice)
         "3f2b8c1e-7a44-4d0b-9c55-0a1b2c3d4e5f/2-b.txt" 1000.

Definition alice_row3 : FileRecord.t :=
  row_of "00000000-0000-4000-8000-000000000003" (User.id alice)
         "3f2b8c1e-7a44-4d0b-9c55-0a1b2c3d4e5f/3-c.txt" 2000.

Definition bob_row : FileRecord.t :=
  row_of "00000000-0000-4000-8000-000000000009" (User.id bob)
         "9d1c0e2a-5b66-4f3a-8e77-1b2c3d4e5f60/9-z.txt" 3000.

Definition world_of (rows : list FileRecord.t) : World :=
  {| files_table := rows;
     bucket := list_to_map ((λ r, (FileRecord.file_path r, [Byte.x78])) <$> rows);
     calls := []; postgrest_is_Error := true |}.

(** A session of the dashboard: a file is picked, uploaded, listed,
    downloaded, deleted, and deleted once more. *)
Definition sample_session : list Dashboard.event :=
  [Dashboard.Mount None;
   Dashboard.Pick (Some photo);
   Dashboard.Upload entropy0 defaults0 None None None;
   Dashboard.Download alice_row1 None;
   Dashboard.Delete alice_row1 true None None None;
   Dashboard.Delete bob_row true None None None].

(** * Properties *)

(** ** Strings and the key generator *)

Lemma append_nil_l (s : string) : "" +:+ s = s.
Proof. reflexivity. Qed.

Lemma append_cons c (a b : string) : String c a +:+ b = String c (a +:+ b).
Proof. reflexivity. Qed.

Lemma append_assoc (a b c : string) : (a +:+ b) +:+ c = a +:+ (b +:+ c).
Proof.
  induction a as [|x a IH]; [done|]. by rewrite !append_cons, IH.
Qed.

Lemma split_nonempty sep s : Js.split sep s ≠ [].
Proof.
  destruct s as [|c s]; simpl; [done|].
  destruct (Ascii.eqb c sep); [done|].
  by destruct (Js.split sep s).
Qed.

Lemma split_absent sep s : Js.occurs sep s = false → Js.split sep s = [s].
Proof.
  induction s as [|c s IH]; simpl; [done|].
  intros [Hc Hs]%orb_false_iff. rewrite Hc, (IH Hs). done.
Qed.

Lemma split_append sep a b :
  Js.split sep (a +:+ String sep b) = Js.split sep a ++ Js.split sep b.
Proof.
  induction a as [|c a IH]; [rewrite append_nil_l|rewrite append_cons]; simpl.
  - by rewrite Ascii.eqb_refl.
  - destruct (Ascii.eqb c sep); rewrite IH; [done|].
    destruct (Js.split sep a) as [|w ws] eqn:E; [|done].
    by destruct (split_nonempty sep a).
Qed.

(** [split(sep).pop()] is what follows the last separator. *)
Lemma pop_split_append sep a b :
  Js.occurs sep b = false →
  Js.pop (Js.split sep (a +:+ String sep b)) = Some b.
Proof.
  intros Hb. unfold Js.pop.
  by rewrite split_append, (split_absent _ _ Hb), last_snoc.
Qed.

Lemma pop_split_absent sep s :
  Js.occurs sep s = false → Js.pop (Js.split sep s) = Some s.
Proof. intros Hs. unfold Js.pop. by rewrite (split_absent _ _ Hs). Qed.

Lemma pop_split_is_Some sep s : is_Some (Js.pop (Js.split sep s)).
Proof. apply last_is_Some, split_nonempty. Qed.

Lemma first_segment_append owner rest :
  Js.occurs slash owner = false →
  first_segment (owner +:+ String slash rest) = Some owner.
Proof.
  intros Ho. unfold first_segment, foldername.
  rewrite split_append, (split_absent _ _ Ho). simpl.
  destruct (Js.split slash rest) eqn:E; [|done].
  by destruct (split_nonempty slash rest).
Qed.

Lemma is_hex_not_slash c : is_hex c = true → Ascii.eqb c slash = false.
Proof.
  destruct c as [[] [] [] [] [] [] [] []]; vm_compute; congruence.
Qed.

Lemma hex_run_no_slash n : ∀ s rest,
  hex_run n s = Some rest →
  Js.occurs slash rest = false → Js.occurs slash s = false.
Proof.
  induction n as [|n IH]; intros s rest; simpl.
  - by intros [= ->].
  - destruct s as [|c s]; [done|].
    destruct (is_hex c) eqn:Hc; [|done].
    intros Hrun Hrest. simpl.
    by rewrite (is_hex_not_slash _ Hc), (IH _ _ Hrun Hrest).
Qed.

Lemma uuid_tail_no_slash gs : ∀ s,
  uuid_tail gs s = true → Js.occurs slash s = false.
Proof.
  induction gs as [|n gs IH]; intros s; simpl.
  - by destruct s.
  - destruct s as [|c s]; [done|].
    destruct (decide (c = "-"%char)) as [->|Hne].
    + destruct (hex_run n s) as [rest|] eqn:Hrun; [|done].
      intros Ht. simpl. eapply hex_run_no_slash; eauto.
    + intros Ht. exfalso.
      destruct c as [[] [] [] [] [] [] [] []]; try discriminate Ht.
      by apply Hne.
Qed.

(** No uuid contains the path separator. *)
Lemma uuid_no_slash s : is_uuid s = true → Js.occurs slash s = false.
Proof.
  unfold is_uuid. destruct (hex_run 8 s) as [rest|] eqn:Hrun; [|done].
  intros Ht. eapply hex_run_no_slash; eauto using uuid_tail_no_slash.
Qed.

Lemma filePath_ends_with_ext u e f ext :
  fileExt f = Some ext → Js.ends_with (filePath u e f) ("." +:+ ext).
Proof.
  intros Hext. unfold filePath, fileName. rewrite Hext. simpl.
  exists (User.id u +:+ "/" +:+ pretty (now e) +:+ "-" +:+
          Js.substring 7 (random36 e)).
  by rewrite !append_assoc.
Qed.

Example split_extension :
  Js.split dot "report.final.pdf" = ["report"; "final"; "pdf"].
Proof. reflexivity. Qed.

Example split_dotless : Js.split dot "README" = ["README"].
Proof. reflexivity. Qed.

Example split_empty : Js.split dot "" = [""].
Proof. reflexivity. Qed.

Example uuid_accepted : is_uuid (User.id alice) = true.
Proof. reflexivity. Qed.

Example uuid_rejected : is_uuid "a/b" = false.
Proof. reflexivity. Qed.

Example filePath_of_photo :
  filePath alice entropy0 photo
  = "3f2b8c1e-7a44-4d0b-9c55-0a1b2c3d4e5f/1700000000000-82mvyr.png".
Proof. vm_compute. reflexivity. Qed.

Example foldername_of_key :
  foldername (filePath alice entropy0 photo) = [User.id alice].
Proof. vm_compute. reflexivity. Qed.

(** C9. For every owner identity (a uuid) and display name, the first
    path segment of the generated storage key is the owner identity, so
    the storage policy of that owner covers the key; a display name with
    an extension hands it on as the suffix of the key; and the key is a
    function of the owner id, the name and the time/random source alone,
    computed without a backend. *)
Theorem storage_key_owner_segment_and_extension
    (u : User.t) (e : Entropy) (f : File.t) :
  is_uuid (User.id u) = true →
  first_segment (filePath u e f) = Some (User.id u) ∧
  objects_policy (Some (User.id u)) (filePath u e f) = true ∧
  (∀ base ext, File.name f = base +:+ "." +:+ ext →
               Js.occurs dot ext = false →
               Js.ends_with (filePath u e f) ("." +:+ ext)) ∧
  (∀ u' f', User.id u' = User.id u → File.name f' = File.name f →
            filePath u' e f' = filePath u e f).
Proof.
  intros Hid.
  assert (first_segment (filePath u e f) = Some (User.id u)) as Hseg
    by (unfold filePath; apply first_segment_append, uuid_no_slash, Hid).
  split; [done|]. split; [|split].
  - simpl. by apply bool_decide_eq_true.
  - intros base ext Hname Hext. apply filePath_ends_with_ext.
    unfold fileExt. rewrite Hname. by apply pop_split_append.
  - intros u' f' Hu Hf. unfold filePath, fileName, fileExt. by rewrite Hu, Hf.
Qed.

Lemma storage_key_owner_segment_and_extension_witness :
  first_segment (filePath alice entropy0 photo) = Some (User.id alice).
Proof.
  refine (proj1 (storage_key_owner_segment_and_extension alice entropy0 photo _)).
  reflexivity.
Defined.

(** C10. For every display name without a dot, [split('.').pop()] is
    the whole name, so the generated key still ends with a dot followed
    by the entire display name; and whatever the name, [pop()] yields a
    string, so every key ends with a dot-separated suffix. *)
Theorem dotless_name_key_suffix (u : User.t) (e : Entropy) (f : File.t) :
  (Js.occurs dot (File.name f) = false →
   fileExt f = Some (File.name f) ∧
   Js.ends_with (filePath u e f) ("." +:+ File.name f)) ∧
  (∃ ext, fileExt f = Some ext ∧ Js.ends_with (filePath u e f) ("." +:+ ext)).
Proof.
  split.
  - intros Hdot.
    assert (fileExt f = Some (File.name f)) as Hext
      by (by apply pop_split_absent).
    split; [done | by apply filePath_ends_with_ext].
  - destruct (pop_split_is_Some dot (File.name f)) as [ext Hext].
    exists ext. split; [done | by apply filePath_ends_with_ext].
Qed.

Lemma dotless_name_key_suffix_witness :
  Js.ends_with (filePath alice entropy0 readme) ".README".
Proof.
  refine (proj2 (proj1 (dotless_name_key_suffix alice entropy0 readme) _)).
  reflexivity.
Defined.

(** ** Upload *)

Section UploadRuns.
Variables (f : File.t) (u : User.t) (e : Entropy) (d : Defaults).
Variables (v : FileUpload.view) (w : World).

Let path := filePath u e f.

Lemma handleUpload_idle_no_file user uf df s :
  FileUpload.handleUpload None user e d uf df s = (Returned (), s).
Proof. done. Qed.

Lemma handleUpload_idle_no_user sel uf df s :
  FileUpload.handleUpload sel None e d uf df s = (Returned (), s).
Proof. by destruct sel. Qed.

(** First step failed: the catalog is never asked. *)
Lemma handleUpload_blob_failed uf df err w1 :
  Storage.upload (Some (User.id u)) path f uf w = (Some err, w1) →
  FileUpload.handleUpload (Some f) (Some u) e d uf df (v, w)
  = (Returned (), (upload_failed_view v err, w1)).
Proof.
  intros H. unfold FileUpload.handleUpload, try_finally, try_catch, await,
    set_view, mbind, M_bind, throw_if, throw, mret, M_ret. simpl.
  fold path. by rewrite H.
Qed.

(** First step done, second step failed. *)
Lemma handleUpload_insert_failed uf df err w1 w2 :
  Storage.upload (Some (User.id u)) path f uf w = (None, w1) →
  Db.insert (Some (User.id u)) (FileUpload.row u path f) d df w1 = (Some err, w2) →
  FileUpload.handleUpload (Some f) (Some u) e d uf df (v, w)
  = (Returned (), (upload_failed_view v err, w2)).
Proof.
  intros H1 H2. unfold FileUpload.handleUpload, try_finally, try_catch, await,
    set_view, mbind, M_bind, throw_if, throw, mret, M_ret. simpl.
  fold path. rewrite H1. simpl. by rewrite H2.
Qed.

(** Both steps done. *)
Lemma handleUpload_done uf df w1 w2 :
  Storage.upload (Some (User.id u)) path f uf w = (None, w1) →
  Db.insert (Some (User.id u)) (FileUpload.row u path f) d df w1 = (None, w2) →
  FileUpload.handleUpload (Some f) (Some u) e d uf df (v, w)
  = (Returned (), (upload_done_view v, w2)).
Proof.
  intros H1 H2. unfold FileUpload.handleUpload, try_finally, try_catch, await,
    set_view, mbind, M_bind, throw_if, throw, mret, M_ret. simpl.
  fold path. rewrite H1. simpl. by rewrite H2.
Qed.

End UploadRuns.

(** What one request does to each backend. *)
Section BackendFacts.
Variables (auth : option string) (w : World).

Lemma upload_effect path f fault oe w1 :
  Storage.upload auth path f fault w = (oe, w1) →
  calls w1 = calls w ++ [StorageUpload path] ∧
  files_table w1 = files_table w ∧
  bucket w1 = match oe with
              | Some _ => bucket w
              | None => <[path := File.content f]> (bucket w)
              end.
Proof.
  unfold Storage.upload. destruct fault as [err|]; simpl.
  { by intros [= <- <-]. }
  destruct (objects_policy auth path); simpl; [|by intros [= <- <-]].
  destruct (bucket w !! path); by intros [= <- <-].
Qed.

(** The blob write goes through exactly when no fault is injected, the
    INSERT policy accepts the key and the key is not taken. *)
Lemma upload_succeeds path f :
  objects_policy auth path = true → bucket w !! path = None →
  Storage.upload auth path f None w
  = (None, with_bucket (<[path := File.content f]> (bucket w))
             (log (StorageUpload path) w)).
Proof. intros Hp Hb. unfold Storage.upload. simpl. by rewrite Hp, Hb. Qed.

Lemma insert_effect row d fault oe w1 :
  Db.insert auth row d fault w = (oe, w1) →
  calls w1 = calls w ++ [DbInsert row] ∧
  bucket w1 = bucket w ∧
  match oe with
  | Some _ => files_table w1 = files_table w
  | None => ∃ r, files_table w1 = files_table w ++ [r] ∧
                 FileRecord.user_id r = NewFile.user_id row ∧
                 FileRecord.filename r = NewFile.filename row ∧
                 FileRecord.file_path r = NewFile.file_path row ∧
                 auth = Some (NewFile.user_id row)
  end.
Proof.
  unfold Db.insert. destruct fault as [err|]; simpl.
  { by intros [= <- <-]. }
  unfold files_policy. case_bool_decide as Hauth; simpl; [|by intros [= <- <-]].
  case_bool_decide; intros [= <- <-]; [done|].
  repeat split; eauto 10.
Qed.

Lemma insert_fault row d err :
  Db.insert auth row d (Some err) w = (Some err, log (DbInsert row) w).
Proof. done. Qed.

Lemma remove_effect paths fault oe w1 :
  Storage.remove auth paths fault w = (oe, w1) →
  calls w1 = calls w ++ [StorageRemove paths] ∧
  files_table w1 = files_table w ∧
  match oe with
  | Some _ => bucket w1 = bucket w
  | None => bucket w1 =
              foldr delete (bucket w) (filter (λ p, objects_policy auth p) paths)
  end.
Proof.
  unfold Storage.remove. destruct fault as [err|]; by intros [= <- <-].
Qed.

Lemma delete_effect id fault oe w1 :
  Db.delete_eq_id auth id fault w = (oe, w1) →
  calls w1 = calls w ++ [DbDelete id] ∧
  bucket w1 = bucket w ∧
  match oe with
  | Some _ => files_table w1 = files_table w
  | None => files_table w1 =
              filter (λ r, ¬ (Db.visible auth r ∧ FileRecord.id r = id))
                     (files_table w)
  end.
Proof.
  unfold Db.delete_eq_id. destruct fault as [err|]; by intros [= <- <-].
Qed.

End BackendFacts.

(** *** Validation of the selection *)

Lemma handleFileSelect_selection picked s f :
  FileUpload.selectedFile (FileUpload.handleFileSelect picked s).2.1 = Some f →
  FileUpload.selectedFile s.1 = Some f ∨
  (picked = Some f ∧ File.size f ≤ FileUpload.max_size).
Proof.
  destruct picked as [g|]; [|by left]. unfold FileUpload.handleFileSelect.
  destruct (Z.gtb_spec (File.size g) FileUpload.max_size); simpl; [by left|].
  intros [= ->]. right. split; [done | lia].
Qed.

Lemma clickUpload_selection user e d uf df s f :
  FileUpload.selectedFile (FileUpload.clickUpload user e d uf df s).2.1 = Some f →
  FileUpload.selectedFile s.1 = Some f.
Proof.
  destruct s as [v w]. unfold FileUpload.clickUpload. simpl.
  destruct (FileUpload.selectedFile v) as [g|] eqn:Hsel;
    [|by rewrite handleUpload_idle_no_file; simpl; rewrite Hsel].
  destruct user as [u|];
    [|by rewrite handleUpload_idle_no_user; simpl; rewrite Hsel].
  destruct (Storage.upload (Some (User.id u)) (filePath u e g) g uf w)
    as [[err|] w1] eqn:Hup.
  { rewrite (handleUpload_blob_failed _ _ _ _ _ _ _ df _ _ Hup). simpl.
    by rewrite Hsel. }
  destruct (Db.insert (Some (User.id u)) (FileUpload.row u (filePath u e g) g)
              d df w1) as [[err|] w2] eqn:Hins.
  - rewrite (handleUpload_insert_failed _ _ _ _ _ _ _ _ _ _ _ Hup Hins). simpl.
    by rewrite Hsel.
  - by rewrite (handleUpload_done _ _ _ _ _ _ _ _ _ _ Hup Hins).
Qed.

(** Whatever the user does, the selected file is within the limit. *)
Lemma selection_within_limit evs : ∀ s,
  (∀ f, FileUpload.selectedFile s.1 = Some f →
        File.size f ≤ FileUpload.max_size) →
  ∀ f, FileUpload.selectedFile (FileUpload.run evs s).1 = Some f →
       File.size f ≤ FileUpload.max_size.
Proof.
  induction evs as [|ev evs IH]; intros s Hs; [done|]. simpl. apply IH.
  intros f. destruct ev as [picked|user e d uf df|]; simpl.
  - intros [?|[_ ?]]%handleFileSelect_selection; auto.
  - intros ?%clickUpload_selection. auto.
  - done.
Qed.

(** C6. A file of exactly 50 MiB (and any smaller one) is accepted as the
    selection; a file one byte larger (and any larger one) is rejected
    with the size message, the selection is left as it was and neither
    backend receives a call. No sequence of picks and clicks ever leaves
    a file above the limit selected, so none is ever handed to the
    upload. *)
Theorem upload_size_boundary (f : File.t) (v : FileUpload.view) (w : World) :
  FileUpload.max_size = 52428800 ∧
  (File.size f ≤ FileUpload.max_size →
   FileUpload.handleFileSelect (Some f) (v, w) =
     (Returned (),
      (FileUpload.setError "" (FileUpload.setSelectedFile (Some f) v), w))) ∧
  (FileUpload.max_size + 1 ≤ File.size f →
   FileUpload.handleFileSelect (Some f) (v, w) =
     (Returned (),
      (FileUpload.setError "File size must be less than 50MB" v, w))) ∧
  (∀ evs,
     FileUpload.selectedFile (FileUpload.run evs (FileUpload.initial, w)).1
       = Some f →
     File.size f ≤ FileUpload.max_size).
Proof.
  split; [reflexivity|]. unfold FileUpload.handleFileSelect.
  split; [|split]; [intros H|intros H|].
  - destruct (Z.gtb_spec (File.size f) FileUpload.max_size); [lia | done].
  - destruct (Z.gtb_spec (File.size f) FileUpload.max_size); [done | lia].
  - intros evs. by apply selection_within_limit.
Qed.

Lemma upload_size_boundary_witness :
  FileUpload.selectedFile
    (FileUpload.handleFileSelect (Some (file_of_size 52428800))
       (FileUpload.initial, empty_world)).2.1 = Some (file_of_size 52428800) ∧
  (FileUpload.handleFileSelect (Some (file_of_size 52428801))
     (FileUpload.initial, empty_world)).2 =
    (FileUpload.setError "File size must be less than 50MB" FileUpload.initial,
     empty_world).
Proof.
  split.
  - rewrite (proj1 (proj2 (upload_size_boundary (file_of_size 52428800)
                             FileUpload.initial empty_world))); [reflexivity|].
    vm_compute. discriminate.
  - rewrite (proj1 (proj2 (proj2 (upload_size_boundary (file_of_size 52428801)
                             FileUpload.initial empty_world)))); [reflexivity|].
    vm_compute. discriminate.
Defined.

(** *** The display name *)

(** C7, as stated, does not hold: with the empty display name selected
    and a user signed in, the handler validates nothing; the blob is
    written under a key ending in a dot, the row is inserted with the
    empty filename and the upload is reported as complete. *)
Lemma empty_name_upload_reaches_backends :
  let '(_, (v, w)) :=
    FileUpload.handleUpload (Some unnamed_file) (Some alice) entropy0 defaults0
      None None
      (FileUpload.setSelectedFile (Some unnamed_file) FileUpload.initial,
       empty_world) in
  calls w =
    [StorageUpload "3f2b8c1e-7a44-4d0b-9c55-0a1b2c3d4e5f/1700000000000-82mvyr.";
     DbInsert
       {| NewFile.user_id := "3f2b8c1e-7a44-4d0b-9c55-0a1b2c3d4e5f";
          NewFile.filename := "";
          NewFile.file_path :=
            "3f2b8c1e-7a44-4d0b-9c55-0a1b2c3d4e5f/1700000000000-82mvyr.";
          NewFile.file_size := 3;
          NewFile.mime_type := "application/octet-stream" |}] ∧
  FileRecord.filename <$> files_table w = [""] ∧
  FileUpload.error v = "" ∧
  FileUpload.onUploadComplete v = 1%nat.
Proof. vm_compute. repeat split. Qed.

(** C7, amended. The upload handler returns before any backend call
    only when no file is selected or no user is signed in. The display
    name is not validated: whatever it is, the empty name included, the
    blob repository receives the upload request, and once the blob is
    written the catalog receives the insert carrying that name. *)
Theorem upload_name_not_validated
    (f : File.t) (u : User.t) (e : Entropy) (d : Defaults)
    (uf df : option BackendError) (v : FileUpload.view) (w : World) :
  (∀ user, FileUpload.handleUpload None user e d uf df (v, w)
           = (Returned (), (v, w))) ∧
  (∀ sel, FileUpload.handleUpload sel None e d uf df (v, w)
          = (Returned (), (v, w))) ∧
  (∃ rest,
     calls (FileUpload.handleUpload (Some f) (Some u) e d uf df (v, w)).2.2
     = calls w ++ StorageUpload (filePath u e f) :: rest) ∧
  ((Storage.upload (Some (User.id u)) (filePath u e f) f uf w).1 = None →
   ∃ row,
     calls (FileUpload.handleUpload (Some f) (Some u) e d uf df (v, w)).2.2
     = calls w ++ [StorageUpload (filePath u e f); DbInsert row] ∧
     NewFile.filename row = File.name f).
Proof.
  split; [|split]; [intros; apply handleUpload_idle_no_file
                   |intros; apply handleUpload_idle_no_user|].
  destruct (Storage.upload (Some (User.id u)) (filePath u e f) f uf w)
    as [[err|] w1] eqn:Hup.
  - rewrite (handleUpload_blob_failed _ _ _ _ _ _ _ df _ _ Hup). simpl.
    destruct (upload_effect _ _ _ _ _ _ _ Hup) as (-> & _). split; [|done].
    by exists [].
  - destruct (Db.insert (Some (User.id u))
                (FileUpload.row u (filePath u e f) f) d df w1)
      as [oe w2] eqn:Hins.
    destruct (upload_effect _ _ _ _ _ _ _ Hup) as (Hc1 & _).
    destruct (insert_effect _ _ _ _ _ _ _ Hins) as (Hc2 & _).
    assert (calls (FileUpload.handleUpload (Some f) (Some u) e d uf df (v, w)).2.2
            = calls w2) as ->.
    { destruct oe as [err|].
      - by rewrite (handleUpload_insert_failed _ _ _ _ _ _ _ _ _ _ _ Hup Hins).
      - by rewrite (handleUpload_done _ _ _ _ _ _ _ _ _ _ Hup Hins). }
    rewrite Hc2, Hc1, <- app_assoc. simpl. split; [by eexists|].
    intros _. by eexists.
Qed.

Lemma upload_name_not_validated_witness :
  ∃ row,
    calls (FileUpload.handleUpload (Some unnamed_file) (Some alice) entropy0
             defaults0 None None (FileUpload.initial, empty_world)).2.2
    = calls empty_world
        ++ [StorageUpload (filePath alice entropy0 unnamed_file); DbInsert row] ∧
    NewFile.filename row = File.name unnamed_file.
Proof.
  apply (proj2 (proj2 (proj2 (upload_name_not_validated unnamed_file alice
           entropy0 defaults0 None None FileUpload.initial empty_world)))).
  vm_compute. reflexivity.
Defined.

(** *** A failed catalog insert *)

(** C2, as stated, does not hold: when the blob is written and the
    catalog insert then fails, the handler sends no compensating delete.
    The only requests are the upload and the insert, and the blob stays
    in the bucket without a catalog row. *)
Lemma failed_commit_leaves_blob_without_delete :
  let '(_, (v, w)) :=
    FileUpload.handleUpload (Some photo) (Some alice) entropy0 defaults0
      None (Some catalog_down)
      (FileUpload.setSelectedFile (Some photo) FileUpload.initial,
       empty_world) in
  calls w =
    [StorageUpload (filePath alice entropy0 photo);
     DbInsert (FileUpload.row alice (filePath alice entropy0 photo) photo)] ∧
  bucket w !! filePath alice entropy0 photo = Some (File.content photo) ∧
  files_table w = [] ∧
  FileUpload.error v = "connection refused" ∧
  FileUpload.onUploadComplete v = 0%nat.
Proof. vm_compute. repeat split. Qed.

(** C2, amended. For every upload in which the blob write succeeds and
    the catalog insert then fails, the handler attempts no compensating
    delete: the two requests sent are the upload and the insert, the
    blob remains in the repository under its key and the catalog is
    unchanged. The operation fails and never reports success: the error
    text is the catalog error's message (or the generic text), the
    completion callback is not invoked and the selection is kept. *)
Theorem upload_commit_failure_keeps_orphan
    (f : File.t) (u : User.t) (e : Entropy) (d : Defaults)
    (uf df : option BackendError) (err : BackendError)
    (v : FileUpload.view) (w w1 w2 : World) :
  Storage.upload (Some (User.id u)) (filePath u e f) f uf w = (None, w1) →
  Db.insert (Some (User.id u)) (FileUpload.row u (filePath u e f) f) d df w1
    = (Some err, w2) →
  FileUpload.handleUpload (Some f) (Some u) e d uf df (v, w)
    = (Returned (), (upload_failed_view v err, w2)) ∧
  calls w2 = calls w ++ [StorageUpload (filePath u e f);
                         DbInsert (FileUpload.row u (filePath u e f) f)] ∧
  bucket w2 !! filePath u e f = Some (File.content f) ∧
  files_table w2 = files_table w ∧
  FileUpload.error (upload_failed_view v err)
    = message_or err "Failed to upload file" ∧
  FileUpload.onUploadComplete (upload_failed_view v err)
    = FileUpload.onUploadComplete v ∧
  FileUpload.selectedFile (upload_failed_view v err) = FileUpload.selectedFile v.
Proof.
  intros Hup Hins.
  destruct (upload_effect _ _ _ _ _ _ _ Hup) as (Hc1 & Ht1 & Hb1).
  destruct (insert_effect _ _ _ _ _ _ _ Hins) as (Hc2 & Hb2 & Ht2).
  split; [by apply handleUpload_insert_failed with (w1 := w1)|].
  split; [by rewrite Hc2, Hc1, <- app_assoc|].
  split; [by rewrite Hb2, Hb1, lookup_insert_eq|].
  split; [by rewrite Ht2, Ht1|done].
Qed.

Lemma upload_commit_failure_keeps_orphan_witness :
  calls (Db.insert (Some (User.id alice))
           (FileUpload.row alice (filePath alice entropy0 photo) photo) defaults0
           (Some catalog_down)
           (Storage.upload (Some (User.id alice)) (filePath alice entropy0 photo)
              photo None empty_world).2).2
  = calls empty_world
      ++ [StorageUpload (filePath alice entropy0 photo);
          DbInsert (FileUpload.row alice (filePath alice entropy0 photo) photo)].
Proof.
  refine (proj1 (proj2 (upload_commit_failure_keeps_orphan photo alice entropy0
                          defaults0 None (Some catalog_down) catalog_down
                          FileUpload.initial empty_world _ _ _ _))).
  - vm_compute. reflexivity.
  - reflexivity.
Defined.

(** ** Listing *)

#[global] Instance created_desc_total : Total created_desc.
Proof.
  intros r1 r2. unfold created_desc.
  destruct (FileRecord.created_at r1), (FileRecord.created_at r2); auto; lia.
Qed.

#[global] Instance created_desc_trans : Transitive created_desc.
Proof.
  intros r1 r2 r3. unfold created_desc.
  destruct (FileRecord.created_at r1), (FileRecord.created_at r2),
    (FileRecord.created_at r3); auto; try done; lia.
Qed.

Section ListRuns.
Variables (u : User.t) (v : FileList.view) (w : World).

Lemma select_ok auth uid :
  Db.select_eq_user_id_order auth uid None w
  = ((Some (listed auth uid w), None), log (DbSelect uid) w).
Proof. done. Qed.

Lemma select_fault auth uid err :
  Db.select_eq_user_id_order auth uid (Some err) w
  = ((None, Some err), log (DbSelect uid) w).
Proof. done. Qed.

Lemma loadFiles_signed_out fault s :
  FileList.loadFiles None fault s = (Returned (), s).
Proof. done. Qed.

Lemma loadFiles_ok :
  FileList.loadFiles (Some u) None (v, w)
  = (Returned (),
     (FileList.setLoading false
        (FileList.setFiles (listed (Some (User.id u)) (User.id u) w)
           (FileList.setLoading true v)),
      log (DbSelect (User.id u)) w)).
Proof. done. Qed.

Lemma loadFiles_fault err :
  FileList.loadFiles (Some u) (Some err) (v, w)
  = (Returned (),
     (FileList.setLoading false
        (FileList.setError (message_or err "Failed to load files")
           (FileList.setLoading true v)),
      log (DbSelect (User.id u)) w)).
Proof. done. Qed.

(** Both filters hold of every listed row, each on its own. *)
Lemma listed_owner auth uid r :
  r ∈ listed auth uid w →
  FileRecord.user_id r = uid ∧ auth = Some (FileRecord.user_id r) ∧
  r ∈ files_table w.
Proof.
  unfold listed. rewrite merge_sort_Permutation, list_elem_of_filter.
  unfold Db.visible, files_policy. intros [[Hv <-] Hin].
  apply bool_decide_unpack in Hv. auto.
Qed.

(** The files shown after [loadFiles]: the answer of the query, or
    what was shown before when the query fails or nobody is signed in. *)
Lemma loadFiles_files user fault :
  FileList.files (FileList.loadFiles user fault (v, w)).2.1
  = match user, fault with
    | Some u, None => listed (Some (User.id u)) (User.id u) w
    | _, _ => FileList.files v
    end.
Proof. by destruct user, fault. Qed.

End ListRuns.

Lemma created_by_upload_owner b r :
  created_by_upload b r → FileRecord.user_id r = User.id b.
Proof.
  intros (f & e & d & uf & df & v & w & Hold & Hnew).
  destruct (Storage.upload (Some (User.id b)) (filePath b e f) f uf w)
    as [[err|] w1] eqn:Hup.
  - rewrite (handleUpload_blob_failed _ _ _ _ _ _ _ df _ _ Hup) in Hnew.
    destruct (upload_effect _ _ _ _ _ _ _ Hup) as (_ & Ht & _).
    simpl in Hnew. rewrite Ht in Hnew. done.
  - destruct (upload_effect _ _ _ _ _ _ _ Hup) as (_ & Ht & _).
    destruct (Db.insert (Some (User.id b))
                (FileUpload.row b (filePath b e f) f) d df w1)
      as [[err|] w2] eqn:Hins;
      destruct (insert_effect _ _ _ _ _ _ _ Hins) as (_ & _ & Ht2).
    + rewrite (handleUpload_insert_failed _ _ _ _ _ _ _ _ _ _ _ Hup Hins) in Hnew.
      simpl in Hnew. rewrite Ht2, Ht in Hnew. done.
    + rewrite (handleUpload_done _ _ _ _ _ _ _ _ _ _ Hup Hins) in Hnew.
      simpl in Hnew. destruct Ht2 as (r' & Ht2 & Hu & _).
      rewrite Ht2, Ht, elem_of_app, list_elem_of_singleton in Hnew.
      destruct Hnew as [?| ->]; [done|]. by rewrite Hu.
Qed.

(** C1. Tenant isolation. For distinct owners A and B, every record
    shown after A's list operation is owned by A, none of them was
    created by an upload of B, and the owner filter sits in the catalog
    query itself: whatever session identity and whatever filter value
    are sent (crafted or malformed ones included), each row answered
    satisfies the client-side filter and, independently, the row-level
    security policy. *)
Theorem tenant_isolation (a b : User.t) (fault : option BackendError) (w : World) :
  User.id a ≠ User.id b →
  (∀ r, r ∈ FileList.files
              (FileList.loadFiles (Some a) fault (FileList.initial, w)).2.1 →
        FileRecord.user_id r = User.id a ∧ ¬ created_by_upload b r) ∧
  (∀ auth uid r,
     r ∈ default [] (Db.select_eq_user_id_order auth uid fault w).1.1 →
     FileRecord.user_id r = uid ∧ auth = Some (FileRecord.user_id r)).
Proof.
  intros Hab. split.
  - intros r. rewrite loadFiles_files. destruct fault; [by intros ?%elem_of_nil|].
    intros (Hu & _ & _)%listed_owner. split; [done|].
    intros Hb%created_by_upload_owner. congruence.
  - intros auth uid r. destruct fault as [err|].
    + rewrite select_fault. by intros ?%elem_of_nil.
    + rewrite select_ok. simpl. intros (? & ? & _)%listed_owner. done.
Qed.

Example alice_lists_her_rows :
  FileList.files
    (FileList.loadFiles (Some alice) None
       (FileList.initial, world_of [alice_row1; bob_row; alice_row3])).2.1
  = [alice_row3; alice_row1].
Proof. vm_compute. reflexivity. Qed.

Lemma tenant_isolation_witness :
  (∀ r, r ∈ FileList.files
              (FileList.loadFiles (Some alice) None
                 (FileList.initial,
                  world_of [alice_row1; bob_row; alice_row3])).2.1 →
        FileRecord.user_id r = User.id alice ∧ ¬ created_by_upload bob r) ∧
  (∀ auth uid r,
     r ∈ default [] (Db.select_eq_user_id_order auth uid None
                       (world_of [alice_row1; bob_row; alice_row3])).1.1 →
     FileRecord.user_id r = uid ∧ auth = Some (FileRecord.user_id r)).
Proof.
  apply (tenant_isolation alice bob None
           (world_of [alice_row1; bob_row; alice_row3])).
  vm_compute. discriminate.
Defined.

(** *** Order of the listing *)

Lemma listed_admissible auth uid w :
  admissible_answer
    (filter (λ r, Db.visible auth r ∧ FileRecord.user_id r = uid) (files_table w))
    (listed auth uid w).
Proof.
  split; [apply merge_sort_Permutation | apply Sorted_merge_sort, _].
Qed.

(** C5, as stated, does not hold: two records of one owner with equal
    [created_at] are listed in the order the table holds them, here with
    the smaller id first, and the same two records held the other way
    round are listed the other way round. The ordering requested admits
    both answers over the same rows. *)
Lemma equal_created_at_not_ordered_by_id :
  FileList.files
    (FileList.loadFiles (Some alice) None
       (FileList.initial, world_of [alice_row1; alice_row2])).2.1
  = [alice_row1; alice_row2] ∧
  ¬ Sorted spec_listing_order [alice_row1; alice_row2] ∧
  FileList.files
    (FileList.loadFiles (Some alice) None
       (FileList.initial, world_of [alice_row2; alice_row1])).2.1
  = [alice_row2; alice_row1] ∧
  admissible_answer [alice_row1; alice_row2] [alice_row1; alice_row2] ∧
  admissible_answer [alice_row1; alice_row2] [alice_row2; alice_row1].
Proof.
  split; [vm_compute; reflexivity|]. split; [|split; [vm_compute; reflexivity|]].
  - intros Hs. apply Sorted_inv in Hs as [_ Hhd]. apply HdRel_inv in Hhd.
    unfold spec_listing_order in Hhd. simpl in Hhd.
    destruct Hhd as [Hlt | [_ Hle]]; [lia|]. vm_compute in Hle. done.
  - split; (split; [|repeat constructor; unfold created_desc; simpl; lia]).
    + done.
    + apply perm_swap.
Qed.

(** C5, amended. For every owner, the list operation returns all of
    that owner's records, each once, ordered by [created_at] descending;
    the query names no second sort key, so records with equal
    [created_at] come in no order fixed by their ids. *)
Theorem list_is_owner_rows_by_created_at_desc
    (u : User.t) (v : FileList.view) (w : World) :
  let shown :=
    FileList.files (FileList.loadFiles (Some u) None (v, w)).2.1 in
  shown ≡ₚ filter (λ r, FileRecord.user_id r = User.id u) (files_table w) ∧
  StronglySorted created_desc shown.
Proof.
  cbv zeta. rewrite loadFiles_files. unfold listed. split.
  - rewrite merge_sort_Permutation.
    erewrite list_filter_iff; [done|]. intros r.
    unfold Db.visible, files_policy. split; [by intros [_ ?]|].
    intros Hu. split; [|done]. apply bool_decide_pack. by rewrite Hu.
  - apply StronglySorted_merge_sort; apply _.
Qed.

(** ** Delete: the two-step protocol *)

Section DeleteRuns.
Variables (user : option User.t) (file : FileRecord.t).
Variables (v : FileList.view) (w : World).

Let auth := User.id <$> user.
Let path := FileRecord.file_path file.

Lemma handleDelete_declined sf df s :
  FileList.handleDelete user file false sf df s = (Returned (), s).
Proof. done. Qed.

(** First step failed: the catalog is never asked. *)
Lemma handleDelete_blob_failed err df :
  FileList.handleDelete user file true (Some err) df (v, w)
  = (Returned (),
     (FileList.alert "Failed to delete file" v, log (StorageRemove [path]) w)).
Proof. done. Qed.

(** First step done, second step failed. *)
Lemma handleDelete_row_failed err :
  FileList.handleDelete user file true None (Some err) (v, w)
  = (Returned (),
     (FileList.alert "Failed to delete file" v,
      log (DbDelete (FileRecord.id file)) (blob_removed auth path w))).
Proof. done. Qed.

(** Both steps done. *)
Lemma handleDelete_done :
  FileList.handleDelete user file true None None (v, w)
  = (Returned (),
     (FileList.callOnRefresh v,
      with_table
        (filter (λ r, ¬ (Db.visible auth r ∧ FileRecord.id r = FileRecord.id file))
                (files_table w))
        (log (DbDelete (FileRecord.id file)) (blob_removed auth path w)))).
Proof. done. Qed.

Lemma blob_removed_bucket :
  bucket (blob_removed auth path w)
  = if objects_policy auth path then delete path (bucket w) else bucket w.
Proof.
  unfold blob_removed. rewrite filter_cons, filter_nil.
  by destruct (objects_policy auth path).
Qed.

End DeleteRuns.

(** C3. The delete operation asks the blob repository first and the
    catalog second. When the blob delete fails, the catalog receives no
    request: the operation fails (the failure is alerted, no refresh is
    requested), blobs and rows are as before, and a subsequent list
    shows what it would have shown before, the record included. *)
Theorem delete_blob_first_then_row
    (user : option User.t) (file : FileRecord.t)
    (err : BackendError) (df : option BackendError)
    (v : FileList.view) (w : World) :
  calls (FileList.handleDelete user file true None df (v, w)).2.2
    = calls w ++ [StorageRemove [FileRecord.file_path file];
                  DbDelete (FileRecord.id file)] ∧
  let after := FileList.handleDelete user file true (Some err) df (v, w) in
  calls after.2.2 = calls w ++ [StorageRemove [FileRecord.file_path file]] ∧
  files_table after.2.2 = files_table w ∧
  bucket after.2.2 = bucket w ∧
  FileList.alerts after.2.1 = FileList.alerts v ++ ["Failed to delete file"] ∧
  FileList.onRefresh after.2.1 = FileList.onRefresh v ∧
  (∀ reader fault lv,
     FileList.files (FileList.loadFiles reader fault (lv, after.2.2)).2.1
     = FileList.files (FileList.loadFiles reader fault (lv, w)).2.1).
Proof.
  split.
  - destruct df as [e2|].
    + rewrite handleDelete_row_failed. simpl. by rewrite <- app_assoc.
    + rewrite handleDelete_done. simpl. by rewrite <- app_assoc.
  - cbv zeta. rewrite handleDelete_blob_failed. simpl.
    repeat split. intros reader fault lv. by rewrite !loadFiles_files.
Qed.

(** *** A failed row delete *)

(** C4, as stated, does not hold: a failure of the catalog delete after
    a successful blob delete ends in the same view as a failure of the
    blob delete itself (one alert with one generic text, nothing else),
    while in the first case the blob is gone and the row is still
    there. *)
Lemma partial_delete_reported_like_first_step_failure :
  let start := (FileList.initial, world_of [alice_row1]) in
  let partial :=
    FileList.handleDelete (Some alice) alice_row1 true None (Some catalog_down)
      start in
  let first :=
    FileList.handleDelete (Some alice) alice_row1 true (Some storage_down) None
      start in
  partial.1 = first.1 ∧ partial.2.1 = first.2.1 ∧
  FileList.alerts partial.2.1 = ["Failed to delete file"] ∧
  bucket partial.2.2 !! FileRecord.file_path alice_row1 = None ∧
  files_table partial.2.2 = [alice_row1].
Proof. vm_compute. repeat split. Qed.

(** C4, amended. When the blob delete succeeds and the catalog row
    delete fails, the delete operation fails: the failure is alerted
    and no refresh is requested, so it is not swallowed. The alert is
    the generic text that a first-step failure raises as well, and the
    view it leaves is the same; no error kind tells the two apart. The
    blob is gone (when the caller's storage policy covers its key) and
    the catalog is unchanged. *)
Theorem delete_row_failure_is_generic_failure
    (user : option User.t) (file : FileRecord.t)
    (err first_err : BackendError) (df : option BackendError)
    (v : FileList.view) (w : World) :
  let partial := FileList.handleDelete user file true None (Some err) (v, w) in
  let first := FileList.handleDelete user file true (Some first_err) df (v, w) in
  partial.1 = Returned () ∧
  FileList.alerts partial.2.1 = FileList.alerts v ++ ["Failed to delete file"] ∧
  FileList.onRefresh partial.2.1 = FileList.onRefresh v ∧
  partial.2.1 = first.2.1 ∧
  files_table partial.2.2 = files_table w ∧
  bucket partial.2.2 =
    (if objects_policy (User.id <$> user) (FileRecord.file_path file)
     then delete (FileRecord.file_path file) (bucket w) else bucket w) ∧
  calls partial.2.2 = calls w ++ [StorageRemove [FileRecord.file_path file];
                                  DbDelete (FileRecord.id file)].
Proof.
  cbv zeta. rewrite handleDelete_row_failed, handleDelete_blob_failed.
  repeat split.
  - simpl. apply blob_removed_bucket.
  - simpl. by rewrite <- app_assoc.
Qed.

(** *** Deleting what is not there *)

Lemma filter_all {A} (P : A → Prop) `{!∀ x, Decision (P x)} (l : list A) :
  (∀ x, x ∈ l → P x) → filter P l = l.
Proof.
  induction l as [|x l IH]; intros Hall; [done|].
  rewrite filter_cons_True by (apply Hall; left).
  rewrite IH; [done|]. intros y Hy. apply Hall. by right.
Qed.

(** C8, as stated, does not hold: no lookup precedes the two deletes
    and neither backend reports a row or blob it did not find. Deleting
    a record that is not in the catalog, deleting a second time, and
    deleting a record of another owner all end like a successful
    delete: a refresh is requested and nothing is alerted. The other
    owner's row and blob stay. *)
Lemma delete_without_row_reports_success :
  let stale :=
    FileList.handleDelete (Some alice) alice_row1 true None None
      (FileList.initial, world_of []) in
  let once :=
    FileList.handleDelete (Some alice) alice_row1 true None None
      (FileList.initial, world_of [alice_row1]) in
  let twice :=
    FileList.handleDelete (Some alice) alice_row1 true None None once.2 in
  let foreign :=
    FileList.handleDelete (Some alice) bob_row true None None
      (FileList.initial, world_of [bob_row]) in
  stale.2.1 = FileList.callOnRefresh FileList.initial ∧
  files_table once.2.2 = [] ∧
  FileList.onRefresh twice.2.1 = 2%nat ∧ FileList.alerts twice.2.1 = [] ∧
  FileList.onRefresh foreign.2.1 = 1%nat ∧ FileList.alerts foreign.2.1 = [] ∧
  files_table foreign.2.2 = [bob_row] ∧
  bucket foreign.2.2 !! FileRecord.file_path bob_row = Some [Byte.x78].
Proof. vm_compute. repeat split. Qed.

(** C8, amended. The delete operation looks nothing up and has no
    NotFound outcome. When no catalog row with the given id belongs to
    the caller (there is none, or its owner differs), the operation
    ends as a success: a refresh is requested, nothing is alerted, the
    catalog is unchanged, no blob outside the caller's own key prefix
    is touched, and nothing at all changes when no blob is stored under
    the record's key. In particular a second delete of an
    already-deleted object succeeds again and changes neither rows nor
    blobs. *)
Theorem delete_absent_is_silent_success
    (u : User.t) (file : FileRecord.t) (v : FileList.view) (w : World) :
  ((∀ r, r ∈ files_table w → FileRecord.id r = FileRecord.id file →
         FileRecord.user_id r ≠ User.id u) →
   let after := FileList.handleDelete (Some u) file true None None (v, w) in
   after.1 = Returned () ∧
   after.2.1 = FileList.callOnRefresh v ∧
   files_table after.2.2 = files_table w ∧
   (∀ p, first_segment p ≠ Some (User.id u) →
         bucket after.2.2 !! p = bucket w !! p) ∧
   (bucket w !! FileRecord.file_path file = None →
    bucket after.2.2 = bucket w)) ∧
  (let once := FileList.handleDelete (Some u) file true None None (v, w) in
   let twice := FileList.handleDelete (Some u) file true None None once.2 in
   twice.1 = Returned () ∧
   twice.2.1 = FileList.callOnRefresh (FileList.callOnRefresh v) ∧
   files_table twice.2.2 = files_table once.2.2 ∧
   bucket twice.2.2 = bucket once.2.2).
Proof.
  split.
  - intros Hnone. cbv zeta. rewrite handleDelete_done.
    cbn [fst snd files_table bucket with_table log].
    split; [done|]. split; [done|]. split; [|split].
    + apply filter_all. intros r Hr [Hv Hid].
      apply (Hnone r Hr Hid). unfold Db.visible, files_policy in Hv.
      apply bool_decide_unpack in Hv. simpl in Hv. congruence.
    + intros p Hp. rewrite blob_removed_bucket.
      destruct (objects_policy _ _) eqn:Hpol; [|done].
      apply lookup_delete_ne. intros <-. simpl in Hpol.
      by apply bool_decide_eq_true in Hpol.
    + intros Hb. rewrite blob_removed_bucket.
      destruct (objects_policy _ _); [by apply delete_id | done].
  - cbv zeta. rewrite handleDelete_done. cbn [snd]. rewrite handleDelete_done.
    cbn [fst snd files_table bucket with_table log].
    split; [done|]. split; [done|]. split.
    + by apply list_filter_filter_l.
    + rewrite !blob_removed_bucket. cbn [bucket with_table log].
      rewrite blob_removed_bucket.
      destruct (objects_policy _ _); [by rewrite delete_delete_eq | done].
Qed.

Lemma delete_absent_is_silent_success_witness :
  let after :=
    FileList.handleDelete (Some alice) bob_row true None None
      (FileList.initial, world_of [bob_row]) in
  after.1 = Returned () ∧
  after.2.1 = FileList.callOnRefresh FileList.initial ∧
  files_table after.2.2 = files_table (world_of [bob_row]) ∧
  (∀ p, first_segment p ≠ Some (User.id alice) →
        bucket after.2.2 !! p = bucket (world_of [bob_row]) !! p) ∧
  (bucket (world_of [bob_row]) !! FileRecord.file_path bob_row = None →
   bucket after.2.2 = bucket (world_of [bob_row])).
Proof.
  apply (proj1 (delete_absent_is_silent_success alice bob_row FileList.initial
                  (world_of [bob_row]))).
  intros r Hr _. apply list_elem_of_singleton in Hr. subst r.
  vm_compute. discriminate.
Defined.

(** * Further properties *)

(** ** The policies of the migration *)

Lemma upload_ok_policy auth path f fault w w1 :
  Storage.upload auth path f fault w = (None, w1) →
  objects_policy auth path = true ∧ bucket w !! path = None ∧ fault = None.
Proof.
  unfold Storage.upload. destruct fault; [done|].
  destruct (objects_policy auth path); simpl; [|done].
  by destruct (bucket w !! path).
Qed.

Lemma remove_lookup auth paths fault w p :
  bucket (Storage.remove auth paths fault w).2 !! p
  = match fault with
    | Some _ => bucket w !! p
    | None => if bool_decide (p ∈ paths ∧ objects_policy auth p)
              then None else bucket w !! p
    end.
Proof.
  unfold Storage.remove. destruct fault; [done|]. simpl.
  case_bool_decide as Hp.
  - apply lookup_foldr_delete, list_elem_of_filter. by destruct Hp.
  - apply lookup_foldr_delete_not_elem_of.
    intros [? ?]%list_elem_of_filter. by apply Hp.
Qed.




(** ** The upload handler, case by case *)

Lemma handleUpload_cases f u e d uf df v w :
  let path := filePath u e f in
  let r := FileUpload.handleUpload (Some f) (Some u) e d uf df (v, w) in
  (∃ err w1,
     Storage.upload (Some (User.id u)) path f uf w = (Some err, w1) ∧
     r = (Returned (), (upload_failed_view v err, w1))) ∨
  (∃ err w1 w2,
     Storage.upload (Some (User.id u)) path f uf w = (None, w1) ∧
     Db.insert (Some (User.id u)) (FileUpload.row u path f) d df w1
       = (Some err, w2) ∧
     r = (Returned (), (upload_failed_view v err, w2))) ∨
  (∃ w1 w2,
     Storage.upload (Some (User.id u)) path f uf w = (None, w1) ∧
     Db.insert (Some (User.id u)) (FileUpload.row u path f) d df w1
       = (None, w2) ∧
     r = (Returned (), (upload_done_view v, w2))).
Proof.
  cbv zeta.
  destruct (Storage.upload (Some (User.id u)) (filePath u e f) f uf w)
    as [[err|] w1] eqn:Hup.
  { left. exists err, w1. split; [done|].
    by apply handleUpload_blob_failed. }
  destruct (Db.insert (Some (User.id u)) (FileUpload.row u (filePath u e f) f)
              d df w1) as [[err|] w2] eqn:Hins.
  - right; left. exists err, w1, w2. split; [done|]. split; [done|].
    by apply handleUpload_insert_failed with (w1 := w1).
  - right; right. exists w1, w2. split; [done|]. split; [done|].
    by apply handleUpload_done with (w1 := w1).
Qed.

(** X3. Whatever fails, the upload handler settles: it returns without
    throwing, the uploading flag is off again, and it has sent the blob
    write alone or the blob write followed by the catalog insert. *)
Theorem upload_always_settles
    (f : File.t) (u : User.t) (e : Entropy) (d : Defaults)
    (uf df : option BackendError) (v : FileUpload.view) (w : World) :
  let r := FileUpload.handleUpload (Some f) (Some u) e d uf df (v, w) in
  r.1 = Returned () ∧
  FileUpload.uploading r.2.1 = false ∧
  (calls r.2.2 = calls w ++ [StorageUpload (filePath u e f)] ∨
   calls r.2.2 = calls w ++ [StorageUpload (filePath u e f);
                             DbInsert (FileUpload.row u (filePath u e f) f)]).
Proof.
  cbv zeta.
  destruct (handleUpload_cases f u e d uf df v w)
    as [(err & w1 & Hup & ->)|[(err & w1 & w2 & Hup & Hins & ->)
                              |(w1 & w2 & Hup & Hins & ->)]];
    simpl; (split; [done|]); (split; [done|]);
    destruct (upload_effect _ _ _ _ _ _ _ Hup) as (Hc1 & _).
  - by left.
  - destruct (insert_effect _ _ _ _ _ _ _ Hins) as (Hc2 & _).
    right. by rewrite Hc2, Hc1, <- app_assoc.
  - destruct (insert_effect _ _ _ _ _ _ _ Hins) as (Hc2 & _).
    right. by rewrite Hc2, Hc1, <- app_assoc.
Qed.

(** X4. When the blob write fails, the catalog is never asked: the only
    request is the upload, neither a blob nor a row is created, the
    error text is the storage error's message (or the generic text),
    the selection is kept and completion is not reported. *)
Theorem upload_blob_failure_skips_catalog
    (f : File.t) (u : User.t) (e : Entropy) (d : Defaults)
    (uf df : option BackendError) (err : BackendError)
    (v : FileUpload.view) (w w1 : World) :
  Storage.upload (Some (User.id u)) (filePath u e f) f uf w = (Some err, w1) →
  FileUpload.handleUpload (Some f) (Some u) e d uf df (v, w)
    = (Returned (), (upload_failed_view v err, w1)) ∧
  calls w1 = calls w ++ [StorageUpload (filePath u e f)] ∧
  files_table w1 = files_table w ∧
  bucket w1 = bucket w ∧
  FileUpload.error (upload_failed_view v err)
    = message_or err "Failed to upload file" ∧
  FileUpload.selectedFile (upload_failed_view v err) = FileUpload.selectedFile v ∧
  FileUpload.onUploadComplete (upload_failed_view v err)
    = FileUpload.onUploadComplete v.
Proof.
  intros Hup. destruct (upload_effect _ _ _ _ _ _ _ Hup) as (Hc & Ht & Hb).
  split; [by apply handleUpload_blob_failed|]. done.
Qed.

Lemma upload_blob_failure_skips_catalog_witness :
  calls (Storage.upload (Some (User.id alice)) (filePath alice entropy0 photo)
           photo (Some storage_down) empty_world).2
  = calls empty_world ++ [StorageUpload (filePath alice entropy0 photo)].
Proof.
  refine (proj1 (proj2 (upload_blob_failure_skips_catalog photo alice entropy0
                          defaults0 (Some storage_down) None storage_down
                          FileUpload.initial empty_world _ _))).
  reflexivity.
Defined.

(** The row the catalog holds after a successful upload. *)
Lemma uploaded_row_in_table auth row d w w2 :
  Db.insert auth row d None w = (None, w2) →
  files_table w2 = files_table w ++
    [{| FileRecord.id := gen_random_uuid d;
        FileRecord.user_id := NewFile.user_id row;
        FileRecord.filename := NewFile.filename row;
        FileRecord.file_path := NewFile.file_path row;
        FileRecord.file_size := NewFile.file_size row;
        FileRecord.mime_type := NewFile.mime_type row;
        FileRecord.created_at := Some (db_now d) |}].
Proof.
  unfold Db.insert. simpl. destruct (files_policy _ _); simpl; [|done].
  case_bool_decide; [done|]. by intros [= <-].
Qed.

Lemma insert_succeeds auth row d w :
  auth = Some (NewFile.user_id row) →
  gen_random_uuid d ∉ FileRecord.id <$> files_table w →
  (Db.insert auth row d None w).1 = None.
Proof.
  intros -> Hid. unfold Db.insert, files_policy. simpl.
  rewrite bool_decide_eq_true_2 by done. simpl.
  by rewrite bool_decide_eq_false_2.
Qed.

(** The run in which nothing stands in the way of an upload. *)
Lemma handleUpload_succeeds
    (f : File.t) (u : User.t) (e : Entropy) (d : Defaults)
    (v : FileUpload.view) (w : World) :
  is_uuid (User.id u) = true →
  bucket w !! filePath u e f = None →
  gen_random_uuid d ∉ FileRecord.id <$> files_table w →
  let r := FileUpload.handleUpload (Some f) (Some u) e d None None (v, w) in
  r.1 = Returned () ∧
  r.2.1 = upload_done_view v ∧
  FileUpload.selectedFile r.2.1 = None ∧
  FileUpload.onUploadComplete r.2.1 = S (FileUpload.onUploadComplete v) ∧
  bucket r.2.2 = <[filePath u e f := File.content f]> (bucket w) ∧
  files_table r.2.2 = files_table w ++
    [{| FileRecord.id := gen_random_uuid d;
        FileRecord.user_id := User.id u;
        FileRecord.filename := File.name f;
        FileRecord.file_path := filePath u e f;
        FileRecord.file_size := File.size f;
        FileRecord.mime_type :=
          Js.or_else (File.type f) "application/octet-stream";
        FileRecord.created_at := Some (db_now d) |}].
Proof.
  intros Hid Hfree Hfresh. cbv zeta.
  assert (objects_policy (Some (User.id u)) (filePath u e f) = true) as Hpol.
  { simpl. apply bool_decide_eq_true. unfold filePath.
    by apply first_segment_append, uuid_no_slash. }
  pose proof (upload_succeeds (Some (User.id u)) w _ f Hpol Hfree) as Hup.
  destruct (Db.insert (Some (User.id u)) (FileUpload.row u (filePath u e f) f) d
              None (with_bucket (<[filePath u e f:=File.content f]> (bucket w))
                      (log (StorageUpload (filePath u e f)) w)))
    as [oe w2] eqn:Hins.
  assert (oe = None) as ->.
  { change oe with (oe, w2).1. rewrite <- Hins. by apply insert_succeeds. }
  rewrite (handleUpload_done _ _ _ _ _ _ _ _ _ _ Hup Hins). simpl.
  destruct (insert_effect _ _ _ _ _ _ _ Hins) as (_ & Hb & _).
  do 4 (split; [done|]). split; [by rewrite Hb|].
  by rewrite (uploaded_row_in_table _ _ _ _ _ Hins).
Qed.

(** X5. With a signed-in user (a uuid), a free key, a fresh row id and
    no fault, the upload succeeds: the blob is stored under the
    generated key with the file's bytes, exactly one row is appended,
    carrying the owner, the file's name and size, the key and the MIME
    type (the generic one when the browser gave none), the selection is
    cleared and completion is reported once. *)
Theorem upload_success_postcondition
    (f : File.t) (u : User.t) (e : Entropy) (d : Defaults)
    (v : FileUpload.view) (w : World) :
  is_uuid (User.id u) = true →
  bucket w !! filePath u e f = None →
  gen_random_uuid d ∉ FileRecord.id <$> files_table w →
  let r := FileUpload.handleUpload (Some f) (Some u) e d None None (v, w) in
  r.1 = Returned () ∧
  r.2.1 = upload_done_view v ∧
  FileUpload.selectedFile r.2.1 = None ∧
  FileUpload.onUploadComplete r.2.1 = S (FileUpload.onUploadComplete v) ∧
  bucket r.2.2 = <[filePath u e f := File.content f]> (bucket w) ∧
  files_table r.2.2 = files_table w ++
    [{| FileRecord.id := gen_random_uuid d;
        FileRecord.user_id := User.id u;
        FileRecord.filename := File.name f;
        FileRecord.file_path := filePath u e f;
        FileRecord.file_size := File.size f;
        FileRecord.mime_type :=
          Js.or_else (File.type f) "application/octet-stream";
        FileRecord.created_at := Some (db_now d) |}].
Proof. apply handleUpload_succeeds. Qed.

Lemma upload_success_postcondition_witness :
  FileUpload.selectedFile
    (FileUpload.handleUpload (Some photo) (Some alice) entropy0 defaults0
       None None (FileUpload.initial, empty_world)).2.1 = None.
Proof.
  refine (proj1 (proj2 (proj2 (upload_success_postcondition photo alice entropy0
                                 defaults0 FileUpload.initial empty_world
                                 _ _ _)))).
  - reflexivity.
  - reflexivity.
  - vm_compute. intros H. inversion H.
Defined.

(** What an upload leaves in place. *)
Lemma handleUpload_keeps_blobs
    (sel : option File.t) (user : option User.t) (e : Entropy) (d : Defaults)
    (uf df : option BackendError) (v : FileUpload.view) (w : World) :
  let r := FileUpload.handleUpload sel user e d uf df (v, w) in
  (∀ k blob, bucket w !! k = Some blob → bucket r.2.2 !! k = Some blob) ∧
  files_table w `prefix_of` files_table r.2.2.
Proof.
  cbv zeta. destruct sel as [f|]; [|by rewrite handleUpload_idle_no_file].
  destruct user as [u|]; [|by rewrite handleUpload_idle_no_user].
  assert (∀ oe w1, Storage.upload (Some (User.id u)) (filePath u e f) f uf w
                   = (oe, w1) →
                   (∀ k blob, bucket w !! k = Some blob →
                              bucket w1 !! k = Some blob) ∧
                   files_table w1 = files_table w) as Hstore.
  { intros oe w1 Hup.
    destruct (upload_effect _ _ _ _ _ _ _ Hup) as (_ & Ht & Hb).
    split; [|done]. intros k blob Hk. rewrite Hb. destruct oe; [done|].
    destruct (upload_ok_policy _ _ _ _ _ _ Hup) as (_ & Hfree & _).
    rewrite lookup_insert_ne; [done|]. congruence. }
  destruct (handleUpload_cases f u e d uf df v w)
    as [(err & w1 & Hup & ->)|[(err & w1 & w2 & Hup & Hins & ->)
                              |(w1 & w2 & Hup & Hins & ->)]];
    simpl; destruct (Hstore _ _ Hup) as (Hkeep & Ht).
  - by rewrite Ht.
  - destruct (insert_effect _ _ _ _ _ _ _ Hins) as (_ & Hb & Ht2).
    rewrite Hb, Ht2, Ht. done.
  - destruct (insert_effect _ _ _ _ _ _ _ Hins) as (_ & Hb & (r & Ht2 & _)).
    rewrite Hb, Ht2, Ht. split; [done|]. by apply prefix_app_r.
Qed.

(** X6. An upload never overwrites and never removes: every blob stored
    before is still stored with the same bytes afterwards ([upsert:
    false] refuses a taken key), and the catalog after the upload begins
    with the catalog before it. *)
Theorem upload_never_overwrites
    (sel : option File.t) (user : option User.t) (e : Entropy) (d : Defaults)
    (uf df : option BackendError) (v : FileUpload.view) (w : World) :
  let r := FileUpload.handleUpload sel user e d uf df (v, w) in
  (∀ k blob, bucket w !! k = Some blob → bucket r.2.2 !! k = Some blob) ∧
  files_table w `prefix_of` files_table r.2.2.
Proof. apply handleUpload_keeps_blobs. Qed.

Lemma upload_never_overwrites_witness :
  bucket (FileUpload.handleUpload (Some photo) (Some alice) entropy0 defaults0
            None None (FileUpload.initial, world_of [alice_row1])).2.2
    !! FileRecord.file_path alice_row1
  = Some [Byte.x78].
Proof.
  refine (proj1 (upload_never_overwrites (Some photo) (Some alice) entropy0
                   defaults0 None None FileUpload.initial
                   (world_of [alice_row1]))
            (FileRecord.file_path alice_row1) [Byte.x78] _).
  reflexivity.
Defined.

(** X7. An upload never leaves a catalog row without its blob: when
    every row has a blob under its key before, every row has one after,
    whichever step fails (the blob is written before the row). *)
Theorem upload_keeps_references_valid
    (sel : option File.t) (user : option User.t) (e : Entropy) (d : Defaults)
    (uf df : option BackendError) (v : FileUpload.view) (w : World) :
  references_valid w →
  references_valid (FileUpload.handleUpload sel user e d uf df (v, w)).2.2.
Proof.
  intros Hvalid.
  destruct (handleUpload_keeps_blobs sel user e d uf df v w) as [Hkeep _].
  destruct sel as [f|]; [|by rewrite handleUpload_idle_no_file].
  destruct user as [u|]; [|by rewrite handleUpload_idle_no_user].
  assert (∀ w', files_table w' = files_table w →
                (∀ k blob, bucket w !! k = Some blob →
                           bucket w' !! k = Some blob) →
                references_valid w') as Hsame.
  { intros w' Ht Hk r Hr. rewrite Ht in Hr.
    destruct (Hvalid r Hr) as [blob Hblob]. eauto. }
  destruct (handleUpload_cases f u e d uf df v w)
    as [(err & w1 & Hup & Hr)|[(err & w1 & w2 & Hup & Hins & Hr)
                              |(w1 & w2 & Hup & Hins & Hr)]];
    rewrite Hr in Hkeep |- *; simpl in *;
    destruct (upload_effect _ _ _ _ _ _ _ Hup) as (_ & Ht & Hb).
  - by apply Hsame.
  - destruct (insert_effect _ _ _ _ _ _ _ Hins) as (_ & _ & Ht2).
    apply Hsame; [congruence | done].
  - destruct (insert_effect _ _ _ _ _ _ _ Hins)
      as (_ & Hb2 & (r & Ht2 & _ & _ & Hpath & _)).
    intros r' Hr'. rewrite Ht2, Ht, elem_of_app, list_elem_of_singleton in Hr'.
    destruct Hr' as [Hr'| ->].
    + destruct (Hvalid r' Hr') as [blob Hblob]. eauto.
    + rewrite Hpath, Hb2, Hb. simpl. rewrite lookup_insert_eq. eauto.
Qed.

Lemma upload_keeps_references_valid_witness :
  references_valid
    (FileUpload.handleUpload (Some photo) (Some alice) entropy0 defaults0
       None (Some catalog_down) (FileUpload.initial, world_of [alice_row1])).2.2.
Proof.
  apply upload_keeps_references_valid.
  intros r ->%list_elem_of_singleton. vm_compute. eauto.
Defined.

(** ** Download *)

Lemma handleDownload_saved user file blob c w :
  storage_download (User.id <$> user) (FileRecord.file_path file) None w
    = (Some blob, None) →
  handleDownload user file None (c, w)
  = (Returned (), ((c.1, c.2 ++ [(FileRecord.filename file, blob)]), w)).
Proof.
  intros H. unfold handleDownload, try_catch, await, mbind, M_bind.
  cbn [fst snd]. by rewrite H.
Qed.

Lemma handleDownload_refused user file fault c w :
  (storage_download (User.id <$> user) (FileRecord.file_path file) fault w).1
    = None →
  handleDownload user file fault (c, w)
  = (Returned (), ((FileList.alert "Failed to download file" c.1, c.2), w)).
Proof.
  unfold handleDownload, try_catch, await, mbind, M_bind, storage_download.
  simpl. destruct fault as [err|]; [done|].
  destruct (objects_policy _ _); [|done].
  by destruct (bucket w !! _).
Qed.

(** X8. Round trip. After a successful upload (signed-in uuid user,
    free key, fresh row id, no fault), the catalog holds the new record
    and downloading that record saves exactly the uploaded bytes under
    the file's original name, leaving the backends as they are. *)
Theorem download_returns_uploaded_bytes
    (f : File.t) (u : User.t) (e : Entropy) (d : Defaults)
    (v : FileUpload.view) (w : World) (c : FileList.view * Saved) :
  is_uuid (User.id u) = true →
  bucket w !! filePath u e f = None →
  gen_random_uuid d ∉ FileRecord.id <$> files_table w →
  let w2 := (FileUpload.handleUpload (Some f) (Some u) e d None None (v, w)).2.2 in
  ∃ r, last (files_table w2) = Some r ∧
       handleDownload (Some u) r None (c, w2)
       = (Returned (), ((c.1, c.2 ++ [(File.name f, File.content f)]), w2)).
Proof.
  intros Hid Hfree Hfresh. cbv zeta.
  destruct (handleUpload_succeeds f u e d v w Hid Hfree Hfresh)
    as (_ & _ & _ & _ & Hb & Ht).
  remember (FileUpload.handleUpload (Some f) (Some u) e d None None (v, w)).2.2
    as w2 eqn:Hw2. clear Hw2.
  eexists. split; [by rewrite Ht, last_snoc|].
  apply handleDownload_saved. unfold storage_download. simpl.
  assert (first_segment (filePath u e f) = Some (User.id u)) as Hseg
    by (unfold filePath; by apply first_segment_append, uuid_no_slash).
  rewrite bool_decide_eq_true_2 by done.
  by rewrite Hb, lookup_insert_eq.
Qed.

Lemma download_returns_uploaded_bytes_witness :
  ∃ r, last (files_table
               (FileUpload.handleUpload (Some photo) (Some alice) entropy0
                  defaults0 None None (FileUpload.initial, empty_world)).2.2)
       = Some r ∧
       handleDownload (Some alice) r None
         ((FileList.initial, @nil (string * list Byte.byte)),
          (FileUpload.handleUpload (Some photo) (Some alice) entropy0
             defaults0 None None (FileUpload.initial, empty_world)).2.2)
       = (Returned (),
          ((FileList.initial, [(File.name photo, File.content photo)]),
           (FileUpload.handleUpload (Some photo) (Some alice) entropy0
              defaults0 None None (FileUpload.initial, empty_world)).2.2)).
Proof.
  apply (download_returns_uploaded_bytes photo alice entropy0 defaults0
           FileUpload.initial empty_world
           (FileList.initial, @nil (string * list Byte.byte))).
  - reflexivity.
  - reflexivity.
  - vm_compute. intros H. inversion H.
Defined.

Lemma handleDownload_world user file fault c w :
  (handleDownload user file fault (c, w)).1 = Returned () ∧
  (handleDownload user file fault (c, w)).2.2 = w.
Proof.
  destruct (storage_download (User.id <$> user) (FileRecord.file_path file)
              fault w).1 as [blob|] eqn:Hd.
  - unfold storage_download in Hd. destruct fault as [err|]; [done|].
    destruct (objects_policy _ _) eqn:Hpol; [|done].
    destruct (bucket w !! _) as [blob'|] eqn:Hb; [|done].
    rewrite (handleDownload_saved user file blob'); [done|].
    unfold storage_download. by rewrite Hpol, Hb.
  - by rewrite (handleDownload_refused _ _ _ _ _ Hd).
Qed.

(** X9. A download that cannot be served saves nothing and is reported
    by the generic alert alone: this holds for an injected fault, for a
    key outside the caller's folder and for a record whose blob is
    missing. A download never changes a backend. *)
Theorem download_failure_saves_nothing
    (user : option User.t) (file : FileRecord.t)
    (fault : option BackendError) (c : FileList.view * Saved) (w : World) :
  (handleDownload user file fault (c, w)).1 = Returned () ∧
  (handleDownload user file fault (c, w)).2.2 = w ∧
  (is_Some fault ∨
   objects_policy (User.id <$> user) (FileRecord.file_path file) = false ∨
   bucket w !! FileRecord.file_path file = None →
   (handleDownload user file fault (c, w)).2.1
   = (FileList.alert "Failed to download file" c.1, c.2)).
Proof.
  destruct (storage_download (User.id <$> user) (FileRecord.file_path file)
              fault w).1 as [blob|] eqn:Hd.
  - unfold storage_download in Hd. destruct fault as [err|]; [done|].
    destruct (objects_policy _ _) eqn:Hpol; [|done].
    destruct (bucket w !! _) as [blob'|] eqn:Hb; [|done].
    rewrite (handleDownload_saved user file blob').
    + repeat split. intros [[? [=]]|[?|?]]; done.
    + unfold storage_download. by rewrite Hpol, Hb.
  - by rewrite (handleDownload_refused _ _ _ _ _ Hd).
Qed.

Lemma download_failure_saves_nothing_witness :
  (handleDownload (Some alice) bob_row None
     ((FileList.initial, @nil (string * list Byte.byte)),
      world_of [bob_row])).2.1
  = (FileList.alert "Failed to download file" FileList.initial, []).
Proof.
  refine (proj2 (proj2 (download_failure_saves_nothing (Some alice) bob_row None
                          (FileList.initial, @nil (string * list Byte.byte))
                          (world_of [bob_row]))) _).
  right; left. reflexivity.
Defined.

(** ** Delete *)

(** X10. A confirmed delete without fault of a record whose key lies in
    the caller's folder removes the blob under that key and exactly the
    caller's rows with that id; every other row and every other blob
    stays, and a refresh is requested. *)
Theorem delete_removes_row_and_blob
    (u : User.t) (file : FileRecord.t) (v : FileList.view) (w : World) :
  objects_policy (Some (User.id u)) (FileRecord.file_path file) = true →
  let r := FileList.handleDelete (Some u) file true None None (v, w) in
  r.2.1 = FileList.callOnRefresh v ∧
  bucket r.2.2 = delete (FileRecord.file_path file) (bucket w) ∧
  (∀ x, x ∈ files_table r.2.2 ↔
        x ∈ files_table w ∧
        ¬ (FileRecord.user_id x = User.id u ∧
           FileRecord.id x = FileRecord.id file)).
Proof.
  intros Hpol. cbv zeta. rewrite handleDelete_done.
  cbn [fst snd files_table bucket with_table log].
  split; [done|]. split.
  - rewrite blob_removed_bucket. simpl. simpl in Hpol. by rewrite Hpol.
  - intros x. rewrite list_elem_of_filter.
    unfold Db.visible, files_policy. simpl.
    split; intros [H1 H2].
    + split; [done|]. intros [Ho Hi]. apply H1. split; [|done].
      apply bool_decide_pack. by rewrite Ho.
    + split; [|done]. intros [Ho Hi]. apply H2. split; [|done].
      apply bool_decide_unpack in Ho. congruence.
Qed.

Lemma delete_removes_row_and_blob_witness :
  bucket (FileList.handleDelete (Some alice) alice_row1 true None None
            (FileList.initial, world_of [alice_row1; bob_row])).2.2
  = delete (FileRecord.file_path alice_row1)
           (bucket (world_of [alice_row1; bob_row])).
Proof.
  refine (proj1 (proj2 (delete_removes_row_and_blob alice alice_row1
                          FileList.initial (world_of [alice_row1; bob_row]) _))).
  reflexivity.
Defined.

(** X11. Retry after a partial failure. When the blob delete went
    through and the row delete failed, repeating the delete without
    fault completes it: removing the blob that is already gone is no
    error, the caller's rows with that id are removed, a refresh is
    requested, and the bucket is what the first attempt left. *)
Theorem delete_retry_completes
    (u : User.t) (file : FileRecord.t) (err : BackendError)
    (v : FileList.view) (w : World) :
  let partial :=
    FileList.handleDelete (Some u) file true None (Some err) (v, w) in
  let retry := FileList.handleDelete (Some u) file true None None partial.2 in
  retry.1 = Returned () ∧
  retry.2.1
  = FileList.callOnRefresh (FileList.alert "Failed to delete file" v) ∧
  bucket retry.2.2 = bucket partial.2.2 ∧
  (∀ x, x ∈ files_table retry.2.2 →
        x ∈ files_table w ∧
        ¬ (FileRecord.user_id x = User.id u ∧
           FileRecord.id x = FileRecord.id file)).
Proof.
  cbv zeta. rewrite handleDelete_row_failed. cbn [snd].
  rewrite handleDelete_done.
  cbn [fst snd files_table bucket with_table log].
  split; [done|]. split; [done|]. split.
  - rewrite !blob_removed_bucket. cbn [bucket with_table log].
    rewrite blob_removed_bucket.
    destruct (objects_policy _ _); [by rewrite delete_delete_eq | done].
  - intros x [Hx Hin]%list_elem_of_filter. split; [done|].
    intros [Ho Hi]. apply Hx. split; [|done].
    unfold Db.visible, files_policy. simpl. apply bool_decide_pack.
    by rewrite Ho.
Qed.

Lemma delete_retry_completes_witness :
  files_table
    (FileList.handleDelete (Some alice) alice_row1 true None None
       (FileList.handleDelete (Some alice) alice_row1 true None
          (Some catalog_down)
          (FileList.initial, world_of [alice_row1; bob_row])).2).2.2
  = [bob_row] ∧
  bob_row ∈ files_table (world_of [alice_row1; bob_row]) ∧
  ¬ (FileRecord.user_id bob_row = User.id alice ∧
     FileRecord.id bob_row = FileRecord.id alice_row1).
Proof.
  split; [vm_compute; reflexivity|].
  apply (proj2 (proj2 (proj2 (delete_retry_completes alice alice_row1
                                catalog_down FileList.initial
                                (world_of [alice_row1; bob_row]))))).
  vm_compute. left.
Defined.

(** ** What the list shows *)

(** X12. A load error is sticky: [loadFiles] never clears the error
    text, so once it is set (by a failed load) every later successful
    load still ends on the error panel with that text instead of the
    table. *)
Theorem load_error_is_sticky
    (u : User.t) (err : BackendError) (v : FileList.view) (w w' : World) :
  (FileList.error v ≠ "" →
   render (FileList.loadFiles (Some u) None (v, w)).2.1
   = ErrorPanel (FileList.error v)) ∧
  (message_or err "Failed to load files" ≠ "" →
   render (FileList.loadFiles (Some u) None
             ((FileList.loadFiles (Some u) (Some err) (v, w)).2.1, w')).2.1
   = ErrorPanel (message_or err "Failed to load files")).
Proof.
  assert (∀ v0 w0, FileList.error v0 ≠ "" →
            render (FileList.loadFiles (Some u) None (v0, w0)).2.1
            = ErrorPanel (FileList.error v0)) as Hsticky.
  { intros v0 w0 Hne. rewrite loadFiles_ok. unfold render. simpl.
    by destruct (FileList.error v0). }
  split; [apply Hsticky|]. intros Hne.
  rewrite loadFiles_fault. cbn [snd fst]. by rewrite Hsticky.
Qed.

Lemma load_error_is_sticky_witness :
  render (FileList.loadFiles (Some alice) None
            ((FileList.loadFiles (Some alice) (Some catalog_down)
                (FileList.initial, world_of [alice_row1])).2.1,
             world_of [alice_row1])).2.1
  = ErrorPanel (message_or catalog_down "Failed to load files").
Proof.
  refine (proj2 (load_error_is_sticky alice catalog_down FileList.initial
                   (world_of [alice_row1]) (world_of [alice_row1])) _).
  vm_compute. discriminate.
Defined.



(** ** The dashboard as a whole *)

Lemma clickUpload_returns user e d uf df s :
  (FileUpload.clickUpload user e d uf df s).1 = Returned ().
Proof.
  destruct s as [v w]. unfold FileUpload.clickUpload. simpl.
  destruct (FileUpload.selectedFile v) as [f|]; [|done].
  destruct user as [u|]; [|done].
  by destruct (handleUpload_cases f u e d uf df v w)
    as [(err & w1 & _ & ->)|[(err & w1 & w2 & _ & _ & ->)
                            |(w1 & w2 & _ & _ & ->)]].
Qed.

Lemma handleDelete_returns user file confirmed sf df s :
  (FileList.handleDelete user file confirmed sf df s).1 = Returned ().
Proof.
  destruct s as [v w]. destruct confirmed; [|done].
  destruct sf; [done|]. by destruct df.
Qed.

Lemma loadFiles_run user fault v w :
  FileList.loadFiles user fault (v, w)
  = (Returned (),
     ((FileList.loadFiles user fault (v, w)).2.1,
      match user with
      | Some u => (Db.select_eq_user_id_order (Some (User.id u)) (User.id u)
                     fault w).2
      | None => w
      end)).
Proof. destruct user; [|done]. by destruct fault. Qed.

Lemma refreshed_run times user fault s w :
  Dashboard.refreshed times user fault (s, w)
  = match times with
    | O => (Returned (), (s, w))
    | S _ =>
        let s1 := Dashboard.setRefreshTrigger (λ prev, (prev + times)%nat) s in
        let r := FileList.loadFiles user fault (Dashboard.list s1, w) in
        (Returned (), (Dashboard.with_list r.2.1 s1, r.2.2))
    end.
Proof.
  destruct times; [done|]. cbv zeta.
  unfold Dashboard.refreshed, Dashboard.effect, Dashboard.child, set_view,
    mbind, M_bind. cbn [fst snd].
  by rewrite loadFiles_run.
Qed.

Lemma react_upload user e d uf df lf s w :
  Dashboard.react user (Dashboard.Upload e d uf df lf) (s, w)
  = let r := FileUpload.clickUpload user e d uf df (Dashboard.upload s, w) in
    Dashboard.refreshed
      (FileUpload.onUploadComplete r.2.1
       - FileUpload.onUploadComplete (Dashboard.upload s))%nat
      user lf (Dashboard.with_upload r.2.1 s, r.2.2).
Proof.
  cbv zeta. unfold Dashboard.react, Dashboard.child, read_view, mbind, M_bind.
  cbn [fst snd].
  pose proof (clickUpload_returns user e d uf df (Dashboard.upload s, w)) as Hr.
  destruct (FileUpload.clickUpload user e d uf df (Dashboard.upload s, w))
    as [o [v' w']]. simpl in Hr. by subst o.
Qed.

Lemma react_delete user file confirmed sf df lf s w :
  Dashboard.react user (Dashboard.Delete file confirmed sf df lf) (s, w)
  = let r := FileList.handleDelete user file confirmed sf df
               (Dashboard.list s, w) in
    Dashboard.refreshed
      (FileList.onRefresh r.2.1 - FileList.onRefresh (Dashboard.list s))%nat
      user lf (Dashboard.with_list r.2.1 s, r.2.2).
Proof.
  cbv zeta. unfold Dashboard.react, Dashboard.child, read_view, mbind, M_bind.
  cbn [fst snd].
  pose proof (handleDelete_returns user file confirmed sf df
                (Dashboard.list s, w)) as Hr.
  destruct (FileList.handleDelete user file confirmed sf df
              (Dashboard.list s, w)) as [o [v' w']]. simpl in Hr. by subst o.
Qed.

(** Each handler changes the backends by steps of its session only. *)
Section Steps.
Variable user : option User.t.
Let auth := User.id <$> user.

Lemma loadFiles_steps fault v w :
  rtc (backend_step auth) w (FileList.loadFiles user fault (v, w)).2.2.
Proof.
  rewrite loadFiles_run. subst auth. destruct user as [u|]; [|done].
  apply rtc_once, step_select.
Qed.

Lemma refreshed_steps times fault s w :
  rtc (backend_step auth) w (Dashboard.refreshed times user fault (s, w)).2.2.
Proof.
  rewrite refreshed_run. destruct times; [done|]. apply loadFiles_steps.
Qed.

Lemma clickUpload_steps e d uf df v w :
  rtc (backend_step auth) w (FileUpload.clickUpload user e d uf df (v, w)).2.2.
Proof.
  unfold FileUpload.clickUpload. cbn [fst]. subst auth.
  destruct (FileUpload.selectedFile v) as [f|]; [|done].
  destruct user as [u|]; [|by rewrite handleUpload_idle_no_user].
  cbn [fmap option_fmap option_map].
  destruct (handleUpload_cases f u e d uf df v w)
    as [(err & w1 & Hup & ->)|[(err & w1 & w2 & Hup & Hins & ->)
                              |(w1 & w2 & Hup & Hins & ->)]]; cbn [snd].
  - apply rtc_once. replace w1 with (Storage.upload (Some (User.id u))
      (filePath u e f) f uf w).2 by (by rewrite Hup). apply step_upload.
  - destruct (upload_ok_policy _ _ _ _ _ _ Hup) as (Hpol & _).
    apply rtc_l with w1; [|apply rtc_once].
    + replace w1 with (Storage.upload (Some (User.id u))
        (filePath u e f) f uf w).2 by (by rewrite Hup). apply step_upload.
    + replace w2 with (Db.insert (Some (User.id u))
        (FileUpload.row u (filePath u e f) f) d df w1).2 by (by rewrite Hins).
      by apply step_insert.
  - destruct (upload_ok_policy _ _ _ _ _ _ Hup) as (Hpol & _).
    apply rtc_l with w1; [|apply rtc_once].
    + replace w1 with (Storage.upload (Some (User.id u))
        (filePath u e f) f uf w).2 by (by rewrite Hup). apply step_upload.
    + replace w2 with (Db.insert (Some (User.id u))
        (FileUpload.row u (filePath u e f) f) d df w1).2 by (by rewrite Hins).
      by apply step_insert.
Qed.

Lemma handleDelete_steps file confirmed sf df v w :
  rtc (backend_step auth) w
      (FileList.handleDelete user file confirmed sf df (v, w)).2.2.
Proof.
  destruct confirmed; [|done].
  destruct sf as [e1|].
  { rewrite handleDelete_blob_failed. simpl.
    apply rtc_once, (step_remove auth w [FileRecord.file_path file] (Some e1)). }
  apply rtc_l with (Storage.remove auth [FileRecord.file_path file] None w).2;
    [apply step_remove|].
  destruct df as [e2|].
  - rewrite handleDelete_row_failed.
    apply rtc_once,
      (step_delete auth (Storage.remove auth [FileRecord.file_path file] None w).2
                   (FileRecord.id file) (Some e2)).
  - rewrite handleDelete_done.
    apply rtc_once,
      (step_delete auth (Storage.remove auth [FileRecord.file_path file] None w).2
                   (FileRecord.id file) None).
Qed.

Lemma react_steps ev s w :
  rtc (backend_step auth) w (Dashboard.react user ev (s, w)).2.2.
Proof.
  destruct ev as [lf|picked|e d uf df lf| |file fault|file confirmed sf df lf].
  - unfold Dashboard.react, Dashboard.effect, Dashboard.child. cbn [fst snd].
    pose proof (loadFiles_steps lf (Dashboard.list s) w) as Hl.
    by destruct (FileList.loadFiles user lf (Dashboard.list s, w)) as [o [v' w']].
  - unfold Dashboard.react, Dashboard.child.
    destruct picked as [f|]; [|done]. simpl.
    unfold FileUpload.handleFileSelect. by destruct (_ >? _).
  - rewrite react_upload. cbv zeta. etrans; [apply clickUpload_steps|].
    apply refreshed_steps.
  - done.
  - unfold Dashboard.react, Dashboard.child.
    pose proof (handleDownload_world user file fault
                  (Dashboard.list s, Dashboard.saved s) w) as (_ & Hw).
    destruct (handleDownload user file fault _) as [o [c w']].
    simpl in *. by subst w'.
  - rewrite react_delete. cbv zeta. etrans; [apply handleDelete_steps|].
    apply refreshed_steps.
Qed.

Lemma run_steps evs : ∀ s w,
  rtc (backend_step auth) w (Dashboard.run user evs (s, w)).2.
Proof.
  induction evs as [|ev evs IH]; intros s w; [done|]. simpl.
  pose proof (react_steps ev s w) as Hstep.
  destruct (Dashboard.react user ev (s, w)) as [o [s' w']]. simpl in *.
  etrans; [exact Hstep | apply IH].
Qed.

End Steps.

Lemma insert_ok_inv auth row d fault w w1 :
  Db.insert auth row d fault w = (None, w1) →
  auth = Some (NewFile.user_id row) ∧
  (gen_random_uuid d ∉ FileRecord.id <$> files_table w) ∧
  ∃ r, files_table w1 = files_table w ++ [r] ∧
       FileRecord.id r = gen_random_uuid d ∧
       FileRecord.user_id r = NewFile.user_id row ∧
       FileRecord.file_path r = NewFile.file_path row.
Proof.
  unfold Db.insert, files_policy. destruct fault; [done|]. simpl.
  case_bool_decide; simpl; [|done]. case_bool_decide; [done|].
  intros [= <-]. simpl. eauto 10.
Qed.

Lemma step_primary_key auth w w' :
  backend_step auth w w' → primary_key w → primary_key w'.
Proof.
  unfold primary_key. intros Hstep Hpk. destruct Hstep.
  - by destruct fault.
  - destruct (Storage.upload _ _ _ _ _) as [oe w1] eqn:Hop; cbn [snd].
    by destruct (upload_effect _ _ _ _ _ _ _ Hop) as (_ & -> & _).
  - destruct (Db.insert _ _ _ _ _) as [[err|] w1] eqn:Hop; cbn [snd].
    + by destruct (insert_effect _ _ _ _ _ _ _ Hop) as (_ & _ & ->).
    + destruct (insert_ok_inv _ _ _ _ _ _ Hop) as (_ & Hfresh & r & -> & Hid & _).
      rewrite fmap_app. apply NoDup_app. split; [done|]. split.
      * intros x Hx ->%list_elem_of_singleton. by rewrite Hid in Hx.
      * apply NoDup_singleton.
  - destruct (Storage.remove _ _ _ _) as [oe w1] eqn:Hop; cbn [snd].
    by destruct (remove_effect _ _ _ _ _ _ Hop) as (_ & -> & _).
  - destruct (Db.delete_eq_id _ _ _ _) as [[err|] w1] eqn:Hop;
      destruct (delete_effect _ _ _ _ _ _ Hop) as (_ & _ & Ht); cbn [snd];
      rewrite Ht; [done|].
    eapply sublist_NoDup; [exact Hpk|]. apply fmap_sublist, sublist_filter.
Qed.

Lemma step_spares_others auth w w' :
  backend_step auth w w' →
  (∀ r, files_policy auth (FileRecord.user_id r) = false →
        (r ∈ files_table w' ↔ r ∈ files_table w)) ∧
  (∀ p, objects_policy auth p = false → bucket w' !! p = bucket w !! p).
Proof.
  intros Hstep. destruct Hstep.
  - by destruct fault.
  - destruct (Storage.upload _ _ _ _ _) as [oe w1] eqn:Hop; cbn [snd].
    destruct (upload_effect _ _ _ _ _ _ _ Hop) as (_ & Ht & Hb). cbn [snd].
    rewrite Ht, Hb. split; [done|]. intros p Hp. destruct oe; [done|].
    destruct (upload_ok_policy _ _ _ _ _ _ Hop) as (Hpol & _).
    apply lookup_insert_ne. congruence.
  - destruct (Db.insert _ _ _ _ _) as [[err|] w1] eqn:Hop; cbn [snd];
      destruct (insert_effect _ _ _ _ _ _ _ Hop) as (_ & Hb & Ht); cbn [snd];
      rewrite Hb; (split; [|done]).
    + by rewrite Ht.
    + destruct Ht as (r & -> & Hu & _ & _ & ->). intros x Hx.
      rewrite elem_of_app, list_elem_of_singleton. split; [|by left].
      intros [?| ->]; [done|]. unfold files_policy in Hx.
      rewrite Hu in Hx. by apply bool_decide_eq_false in Hx.
  - split.
    + destruct (Storage.remove _ _ _ _) as [oe w1] eqn:Hop; cbn [snd].
      by destruct (remove_effect _ _ _ _ _ _ Hop) as (_ & -> & _).
    + intros p Hp. rewrite remove_lookup. destruct fault; [done|].
      rewrite bool_decide_eq_false_2; [done|]. rewrite Hp. by intros [_ ?].
  - destruct (Db.delete_eq_id _ _ _ _) as [[err|] w1] eqn:Hop;
      destruct (delete_effect _ _ _ _ _ _ Hop) as (_ & Hb & Ht); cbn [snd];
      rewrite Hb, Ht; [done|]. split; [|done].
    intros r Hr. rewrite list_elem_of_filter. split; [by intros [_ ?]|].
    intros Hin. split; [|done]. intros [Hv _]. unfold Db.visible in Hv.
    by rewrite Hr in Hv.
Qed.

Lemma step_keyed auth w w' :
  backend_step auth w w' → keyed_in_owner_folder w → keyed_in_owner_folder w'.
Proof.
  unfold keyed_in_owner_folder. intros Hstep Hk. destruct Hstep.
  - by destruct fault.
  - destruct (Storage.upload _ _ _ _ _) as [oe w1] eqn:Hop; cbn [snd].
    by destruct (upload_effect _ _ _ _ _ _ _ Hop) as (_ & -> & _).
  - destruct (Db.insert _ _ _ _ _) as [[err|] w1] eqn:Hop; cbn [snd].
    + by destruct (insert_effect _ _ _ _ _ _ _ Hop) as (_ & _ & ->).
    + destruct (insert_ok_inv _ _ _ _ _ _ Hop)
        as (-> & _ & r & -> & _ & Hu & Hp).
      intros x [?| ->%list_elem_of_singleton]%elem_of_app; [by apply Hk|].
      rewrite Hp, Hu. simpl in H. by apply bool_decide_eq_true in H.
  - destruct (Storage.remove _ _ _ _) as [oe w1] eqn:Hop; cbn [snd].
    by destruct (remove_effect _ _ _ _ _ _ Hop) as (_ & -> & _).
  - destruct (Db.delete_eq_id _ _ _ _) as [[err|] w1] eqn:Hop;
      destruct (delete_effect _ _ _ _ _ _ Hop) as (_ & _ & Ht); cbn [snd];
      rewrite Ht; [done|].
    intros r [_ Hr]%list_elem_of_filter. by apply Hk.
Qed.

(** X14. The primary key survives every session: whatever the user
    does in the dashboard and whatever fails, no two rows of the catalog
    ever share an id (an insert with a taken id is refused). *)
Theorem dashboard_keeps_primary_key
    (user : option User.t) (evs : list Dashboard.event)
    (s : Dashboard.state) (w : World) :
  primary_key w → primary_key (Dashboard.run user evs (s, w)).2.
Proof.
  intros Hpk. pose proof (run_steps user evs s w) as Hsteps.
  induction Hsteps as [|w1 w2 w3 Hstep _ IH]; [done|].
  eauto using step_primary_key.
Qed.

Lemma dashboard_keeps_primary_key_witness :
  primary_key
    (Dashboard.run (Some alice) sample_session
       (Dashboard.initial, world_of [alice_row1; bob_row])).2.
Proof.
  apply dashboard_keeps_primary_key. unfold primary_key. vm_compute.
  apply NoDup_cons. split; [by intros ?%list_elem_of_singleton|].
  apply NoDup_singleton.
Defined.

(** X15. Write isolation. Whatever a signed-in user does in the
    dashboard, in whatever order and with whatever records (crafted
    ones included), the rows of every other owner and the blobs in
    every other owner's folder are exactly what they were. *)
Theorem dashboard_spares_other_owners
    (user : option User.t) (evs : list Dashboard.event)
    (s : Dashboard.state) (w : World) (other : string) :
  (∀ u, user = Some u → User.id u ≠ other) →
  (∀ r, FileRecord.user_id r = other →
        (r ∈ files_table (Dashboard.run user evs (s, w)).2 ↔
         r ∈ files_table w)) ∧
  (∀ p, first_segment p = Some other →
        bucket (Dashboard.run user evs (s, w)).2 !! p = bucket w !! p).
Proof.
  intros Hother.
  assert (files_policy (User.id <$> user) other = false) as Hrow.
  { unfold files_policy. apply bool_decide_eq_false.
    destruct user as [u|]; [|done]. intros [= Hu]. by apply (Hother u). }
  assert (∀ p, first_segment p = Some other →
               objects_policy (User.id <$> user) p = false) as Hobj.
  { intros p Hp. destruct user as [u|]; [|done]. simpl.
    apply bool_decide_eq_false. rewrite Hp. intros [= Hu].
    by apply (Hother u). }
  pose proof (run_steps user evs s w) as Hsteps.
  induction Hsteps as [|w1 w2 w3 Hstep _ IH]; [done|].
  destruct (step_spares_others _ _ _ Hstep) as [Hr Hp].
  destruct IH as [IHr IHp]. split.
  - intros r Hu. rewrite IHr by done. apply Hr. by rewrite Hu.
  - intros p Hseg. rewrite IHp by done. by apply Hp, Hobj.
Qed.

Lemma dashboard_spares_other_owners_witness :
  (∀ r, FileRecord.user_id r = User.id bob →
        (r ∈ files_table
               (Dashboard.run (Some alice) sample_session
                  (Dashboard.initial, world_of [alice_row1; bob_row])).2 ↔
         r ∈ files_table (world_of [alice_row1; bob_row]))) ∧
  (∀ p, first_segment p = Some (User.id bob) →
        bucket (Dashboard.run (Some alice) sample_session
                  (Dashboard.initial, world_of [alice_row1; bob_row])).2 !! p
        = bucket (world_of [alice_row1; bob_row]) !! p).
Proof.
  apply (dashboard_spares_other_owners (Some alice) sample_session
           Dashboard.initial (world_of [alice_row1; bob_row]) (User.id bob)).
  intros u [= <-]. vm_compute. discriminate.
Defined.

(** X16. Every row the dashboard adds is keyed in its owner's folder:
    when each catalog row's key starts with the row's owner, this still
    holds after any session (the row is only inserted under a key the
    storage policy has accepted for the same identity). *)
Theorem dashboard_rows_keyed_in_owner_folder
    (user : option User.t) (evs : list Dashboard.event)
    (s : Dashboard.state) (w : World) :
  keyed_in_owner_folder w →
  keyed_in_owner_folder (Dashboard.run user evs (s, w)).2.
Proof.
  intros Hk. pose proof (run_steps user evs s w) as Hsteps.
  induction Hsteps as [|w1 w2 w3 Hstep _ IH]; [done|].
  eauto using step_keyed.
Qed.

Lemma dashboard_rows_keyed_in_owner_folder_witness :
  keyed_in_owner_folder
    (Dashboard.run (Some alice) sample_session
       (Dashboard.initial, world_of [alice_row1; bob_row])).2.
Proof.
  apply dashboard_rows_keyed_in_owner_folder.
  intros r [->|[->|[]%elem_of_nil]%elem_of_cons]%elem_of_cons; reflexivity.
Defined.

Lemma listed_after_insert auth uid w w2 r :
  files_table w2 = files_table w ++ [r] →
  Db.visible auth r → FileRecord.user_id r = uid →
  listed auth uid w2 ≡ₚ r :: listed auth uid w.
Proof.
  intros Ht Hv Hu. unfold listed. rewrite !merge_sort_Permutation, Ht.
  rewrite filter_app, filter_cons_True, filter_nil by done.
  by rewrite Permutation_app_comm.
Qed.

(** X17. A successful upload shows up. In the dashboard of a signed-in
    user (a uuid) with a file selected, a click on upload with a free
    key, a fresh row id and no fault bumps the refresh trigger once,
    and the list reloaded by it holds what it would have held before
    plus exactly the one new record. *)
Theorem dashboard_upload_refreshes_list
    (f : File.t) (u : User.t) (e : Entropy) (d : Defaults)
    (s : Dashboard.state) (w : World) :
  FileUpload.selectedFile (Dashboard.upload s) = Some f →
  is_uuid (User.id u) = true →
  bucket w !! filePath u e f = None →
  gen_random_uuid d ∉ FileRecord.id <$> files_table w →
  let r := Dashboard.react (Some u) (Dashboard.Upload e d None None None) (s, w) in
  Dashboard.refreshTrigger r.2.1 = S (Dashboard.refreshTrigger s) ∧
  Dashboard.upload r.2.1 = upload_done_view (Dashboard.upload s) ∧
  ∃ new, last (files_table r.2.2) = Some new ∧
         FileRecord.filename new = File.name f ∧
         FileRecord.file_size new = File.size f ∧
         FileList.files (Dashboard.list r.2.1)
         ≡ₚ new :: listed (Some (User.id u)) (User.id u) w.
Proof.
  intros Hsel Hid Hfree Hfresh. cbv zeta. rewrite react_upload. cbv zeta.
  unfold FileUpload.clickUpload. cbn [fst]. rewrite Hsel.
  destruct (handleUpload_succeeds f u e d (Dashboard.upload s) w
              Hid Hfree Hfresh) as (Ho & Hv & _ & Hc & Hb & Ht).
  destruct (FileUpload.handleUpload (Some f) (Some u) e d None None
              (Dashboard.upload s, w)) as [o [v2 w2]]. simpl in *. subst v2.
  rewrite Hc. replace (S _ - _)%nat with 1%nat by lia.
  rewrite refreshed_run. cbv zeta. rewrite loadFiles_ok.
  cbn [fst snd Dashboard.refreshTrigger Dashboard.with_list Dashboard.list
       Dashboard.setRefreshTrigger Dashboard.upload Dashboard.with_upload
       files_table log FileList.files FileList.setFiles FileList.setLoading].
  split; [lia|]. split; [done|].
  eexists. split; [by rewrite Ht, last_snoc|]. split; [done|]. split; [done|].
  apply listed_after_insert with (w := w); [done|..].
  - unfold Db.visible, files_policy. simpl. by apply bool_decide_pack.
  - done.
Qed.

Lemma dashboard_upload_refreshes_list_witness :
  Dashboard.refreshTrigger
    (Dashboard.react (Some alice)
       (Dashboard.Upload entropy0 defaults0 None None None)
       (Dashboard.with_upload
          (FileUpload.setSelectedFile (Some photo) FileUpload.initial)
          Dashboard.initial,
        empty_world)).2.1
  = S (Dashboard.refreshTrigger
         (Dashboard.with_upload
            (FileUpload.setSelectedFile (Some photo) FileUpload.initial)
            Dashboard.initial)).
Proof.
  refine (proj1 (dashboard_upload_refreshes_list photo alice entropy0 defaults0
                   _ empty_world _ _ _ _)).
  - reflexivity.
  - reflexivity.
  - reflexivity.
  - vm_compute. intros H. inversion H.
Defined.

(** X18. What fails does not refresh. An upload with a fault in either
    step, and a delete that is declined or has a fault in either step,
    leave the refresh trigger and the list view of the dashboard as
    they were (apart from the alert a failed delete raises): no list
    query is sent. *)
Theorem dashboard_failure_does_not_refresh
    (user : option User.t) (s : Dashboard.state) (w : World)
    (e : Entropy) (d : Defaults) (file : FileRecord.t) (confirmed : bool)
    (uf df lf : option BackendError) :
  (is_Some uf ∨ is_Some df →
   let r := Dashboard.react user (Dashboard.Upload e d uf df lf) (s, w) in
   Dashboard.refreshTrigger r.2.1 = Dashboard.refreshTrigger s ∧
   Dashboard.list r.2.1 = Dashboard.list s ∧
   r.2.2 = (FileUpload.clickUpload user e d uf df (Dashboard.upload s, w)).2.2) ∧
  (confirmed = false ∨ is_Some uf ∨ is_Some df →
   let r := Dashboard.react user
              (Dashboard.Delete file confirmed uf df lf) (s, w) in
   Dashboard.refreshTrigger r.2.1 = Dashboard.refreshTrigger s ∧
   FileList.files (Dashboard.list r.2.1) = FileList.files (Dashboard.list s) ∧
   r.2.2 = (FileList.handleDelete user file confirmed uf df
              (Dashboard.list s, w)).2.2).
Proof.
  split.
  - intros Hfault. cbv zeta. rewrite react_upload. cbv zeta.
    assert (FileUpload.onUploadComplete
              (FileUpload.clickUpload user e d uf df (Dashboard.upload s, w)).2.1
            = FileUpload.onUploadComplete (Dashboard.upload s)) as ->.
    { unfold FileUpload.clickUpload. cbn [fst].
      destruct (FileUpload.selectedFile (Dashboard.upload s)) as [f|]; [|done].
      destruct user as [u|]; [|by rewrite handleUpload_idle_no_user].
      destruct (handleUpload_cases f u e d uf df (Dashboard.upload s) w)
        as [(err & w1 & Hup & ->)|[(err & w1 & w2 & Hup & Hins & ->)
                                  |(w1 & w2 & Hup & Hins & ->)]]; [done..|].
      exfalso. destruct (upload_ok_policy _ _ _ _ _ _ Hup) as (_ & _ & ->).
      destruct Hfault as [[? [=]]|[err ->]]. by rewrite insert_fault in Hins. }
    rewrite Nat.sub_diag, refreshed_run. done.
  - intros Hfault. cbv zeta. rewrite react_delete. cbv zeta.
    assert (∃ v', (FileList.handleDelete user file confirmed uf df
                     (Dashboard.list s, w)).2.1 = v' ∧
                  FileList.onRefresh v' = FileList.onRefresh (Dashboard.list s) ∧
                  FileList.files v' = FileList.files (Dashboard.list s))
      as (v' & -> & -> & Hfiles).
    { destruct confirmed; [|by eexists].
      destruct uf as [e1|]; [by eexists|].
      destruct df as [e2|]; [by eexists|].
      by destruct Hfault as [?|[[? [=]]|[? [=]]]]. }
    rewrite Nat.sub_diag, refreshed_run. done.
Qed.

Lemma dashboard_failure_does_not_refresh_witness :
  Dashboard.refreshTrigger
    (Dashboard.react (Some alice)
       (Dashboard.Upload entropy0 defaults0 None (Some catalog_down) None)
       (Dashboard.with_upload
          (FileUpload.setSelectedFile (Some photo) FileUpload.initial)
          Dashboard.initial,
        empty_world)).2.1
  = 0%nat.
Proof.
  refine (proj1 (proj1 (dashboard_failure_does_not_refresh (Some alice)
                          (Dashboard.with_upload
                             (FileUpload.setSelectedFile (Some photo)
                                FileUpload.initial)
                             Dashboard.initial)
                          empty_world entropy0 defaults0 alice_row1 true
                          None (Some catalog_down) None) _)).
  right. by eexists.
Defined.

(** X19. A successful delete disappears from the list. After a
    confirmed delete without fault by a signed-in user, the refresh
    trigger is bumped once and the list reloaded by it holds no entry
    with the deleted record's id. *)
Theorem dashboard_delete_refreshes_list
    (u : User.t) (file : FileRecord.t) (s : Dashboard.state) (w : World) :
  let r := Dashboard.react (Some u)
             (Dashboard.Delete file true None None None) (s, w) in
  Dashboard.refreshTrigger r.2.1 = S (Dashboard.refreshTrigger s) ∧
  (∀ x, x ∈ FileList.files (Dashboard.list r.2.1) →
        FileRecord.id x ≠ FileRecord.id file ∧
        FileRecord.user_id x = User.id u ∧ x ∈ files_table w).
Proof.
  cbv zeta. rewrite react_delete. cbv zeta. rewrite handleDelete_done.
  cbn [fst snd FileList.onRefresh FileList.callOnRefresh].
  replace (S _ - _)%nat with 1%nat by lia.
  rewrite refreshed_run. cbv zeta. cbn [fst snd Dashboard.list
    Dashboard.with_list Dashboard.setRefreshTrigger Dashboard.refreshTrigger].
  split; [lia|]. intros x. rewrite loadFiles_files.
  intros (Hu & _ & Hin)%listed_owner.
  cbn [files_table with_table log] in Hin.
  apply list_elem_of_filter in Hin as [Hx Hin]. split; [|done].
  intros Hid. apply Hx. split; [|done].
  unfold Db.visible, files_policy. apply bool_decide_pack. simpl. by rewrite Hu.
Qed.

Lemma dashboard_delete_refreshes_list_witness :
  FileRecord.id alice_row3 ≠ FileRecord.id alice_row1 ∧
  FileRecord.user_id alice_row3 = User.id alice ∧
  alice_row3 ∈ files_table (world_of [alice_row1; alice_row3]).
Proof.
  apply (proj2 (dashboard_delete_refreshes_list alice alice_row1
                  Dashboard.initial (world_of [alice_row1; alice_row3]))).
  vm_compute. left.
Defined.

(** X23. A rejected pick leaves the earlier selection armed. After a
    file within the limit is picked and then one above the limit, the
    size message is shown but the first file is still the selection,
    and a click on upload by a signed-in user sends that first file to
    the blob repository. *)
Theorem oversize_pick_keeps_previous_selection
    (f g : File.t) (u : User.t) (e : Entropy) (d : Defaults)
    (uf df : option BackendError) (v : FileUpload.view) (w : World) :
  File.size f ≤ FileUpload.max_size →
  FileUpload.max_size < File.size g →
  let picked := FileUpload.run [FileUpload.Pick (Some f);
                                FileUpload.Pick (Some g)] (v, w) in
  FileUpload.selectedFile picked.1 = Some f ∧
  FileUpload.error picked.1 = "File size must be less than 50MB" ∧
  picked.2 = w ∧
  ∃ rest,
    calls (FileUpload.react (FileUpload.Click (Some u) e d uf df) picked).2.2
    = calls w ++ StorageUpload (filePath u e f) :: rest.
Proof.
  intros Hf Hg. cbv zeta.
  set (v' := FileUpload.setError "File size must be less than 50MB"
               (FileUpload.setError ""
                  (FileUpload.setSelectedFile (Some f) v))).
  assert (FileUpload.run [FileUpload.Pick (Some f); FileUpload.Pick (Some g)]
            (v, w) = (v', w)) as ->.
  { simpl. unfold FileUpload.handleFileSelect.
    destruct (Z.gtb_spec (File.size f) FileUpload.max_size); [lia|].
    cbn [snd fst mbind M_bind set_view].
    by destruct (Z.gtb_spec (File.size g) FileUpload.max_size); [|lia]. }
  split; [done|]. split; [done|]. split; [done|].
  change (FileUpload.react (FileUpload.Click (Some u) e d uf df) (v', w))
    with (FileUpload.handleUpload (Some f) (Some u) e d uf df (v', w)).
  destruct (handleUpload_cases f u e d uf df v' w)
    as [(err & w1 & Hup & ->)|[(err & w1 & w2 & Hup & Hins & ->)
                              |(w1 & w2 & Hup & Hins & ->)]];
    cbn [snd]; destruct (upload_effect _ _ _ _ _ _ _ Hup) as (Hc1 & _).
  - exists []. done.
  - destruct (insert_effect _ _ _ _ _ _ _ Hins) as (Hc2 & _).
    eexists. by rewrite Hc2, Hc1, <- app_assoc.
  - destruct (insert_effect _ _ _ _ _ _ _ Hins) as (Hc2 & _).
    eexists. by rewrite Hc2, Hc1, <- app_assoc.
Qed.

Lemma oversize_pick_keeps_previous_selection_witness :
  FileUpload.selectedFile
    (FileUpload.run [FileUpload.Pick (Some photo);
                     FileUpload.Pick (Some (file_of_size 52428801))]
       (FileUpload.initial, empty_world)).1
  = Some photo.
Proof.
  refine (proj1 (oversize_pick_keeps_previous_selection photo
                   (file_of_size 52428801) alice entropy0 defaults0 None None
                   FileUpload.initial empty_world _ _)).
  - vm_compute. discriminate.
  - reflexivity.
Defined.

(** ** Keys do not collide *)

Lemma append_nil_r (s : string) : s +:+ "" = s.
Proof. induction s as [|c s IH]; [done|]. by rewrite append_cons, IH. Qed.

Lemma all_digits_app a b :
  all_digits a = true → all_digits b = true → all_digits (a +:+ b) = true.
Proof.
  induction a as [|c a IH]; [done|]. rewrite append_cons. simpl.
  intros [Hc Ha]%andb_true_iff Hb. by rewrite Hc, IH.
Qed.

Lemma pretty_N_char_digit k : is_digit (pretty_N_char k) = true.
Proof. unfold pretty_N_char. by repeat case_match. Qed.

Lemma pretty_N_go_shape x : ∀ s,
  ∃ p, all_digits p = true ∧ pretty_N_go x s = p +:+ s ∧
       ((0 < x)%N → p ≠ "").
Proof.
  induction (N.lt_wf_0 x) as [x _ IH]. intros s.
  destruct (decide (x = 0%N)) as [->|Hx].
  { exists "". rewrite pretty_N_go_0. split; [done|]. split; [done|]. lia. }
  rewrite pretty_N_go_step by lia.
  destruct (IH (x `div` 10)%N (N.div_lt x 10 ltac:(lia) eq_refl)
               (String (pretty_N_char (x `mod` 10)) s)) as (p & Hp & -> & _).
  exists (p +:+ String (pretty_N_char (x `mod` 10)) "").
  split; [|split].
  - apply all_digits_app; [done|]. simpl. by rewrite pretty_N_char_digit.
  - by rewrite append_assoc.
  - intros _. by destruct p.
Qed.

Lemma pretty_N_shape (x : N) :
  all_digits (pretty x) = true ∧ pretty x ≠ "".
Proof.
  unfold pretty, pretty_N. case_decide as Hx; [done|].
  destruct (pretty_N_go_shape x "") as (p & Hp & -> & Hne).
  rewrite append_nil_r. split; [done|]. apply Hne. lia.
Qed.

Lemma digits_then_dash p1 : ∀ p2 r1 r2,
  all_digits p1 = true → all_digits p2 = true →
  p1 +:+ String "-" r1 = p2 +:+ String "-" r2 → p1 = p2.
Proof.
  induction p1 as [|c p1 IH]; intros [|c' p2] r1 r2 H1 H2;
    rewrite ?append_nil_l, ?append_cons; [done|..].
  - intros [= <- _]. by simpl in H2.
  - intros [= -> _]. by simpl in H1.
  - simpl in H1, H2. apply andb_true_iff in H1 as [_ H1].
    apply andb_true_iff in H2 as [_ H2].
    intros [= -> Heq]. f_equal. by apply (IH _ _ _ H1 H2 Heq).
Qed.

Lemma dash_append (p : string) : "-" +:+ p = String "-" p.
Proof. reflexivity. Qed.

(** The printed timestamp is what stands before the first dash that
    follows its digits. *)
Lemma timestamp_recoverable (n1 n2 : Z) r1 r2 :
  pretty n1 +:+ String "-" r1 = pretty n2 +:+ String "-" r2 → n1 = n2.
Proof.
  intros Heq. apply (inj pretty). revert Heq.
  assert (∀ x : positive, ∃ c t, pretty (N.pos x) = String c t ∧
                                 is_digit c = true) as Hhead.
  { intros x. destruct (pretty_N_shape (N.pos x)) as [Hd Hne].
    destruct (pretty (N.pos x)) as [|c t]; [done|]. exists c, t.
    split; [done|]. simpl in Hd. by apply andb_true_iff in Hd as [? _]. }
  unfold pretty at 1 2 3 4, pretty_Z.
  destruct n1 as [|x|x], n2 as [|y|y]; try done; unfold pretty, pretty_positive.
  - destruct (pretty_N_shape (N.pos y)) as [Hd _].
    intros Heq. by apply (digits_then_dash "0" _ _ _ eq_refl Hd) in Heq.
  - destruct (pretty_N_shape (N.pos x)) as [Hd _].
    intros Heq. by apply (digits_then_dash _ "0" _ _ Hd eq_refl) in Heq.
  - destruct (pretty_N_shape (N.pos x)) as [Hx _].
    destruct (pretty_N_shape (N.pos y)) as [Hy _].
    intros Heq. by apply (digits_then_dash _ _ _ _ Hx Hy) in Heq.
  - destruct (Hhead x) as (c & t & -> & Hc).
    rewrite ?dash_append, !append_cons. intros [= -> _]. by simpl in Hc.
  - destruct (Hhead y) as (c & t & -> & Hc).
    rewrite ?dash_append, !append_cons. intros [= <- _]. by simpl in Hc.
  - destruct (pretty_N_shape (N.pos x)) as [Hx _].
    destruct (pretty_N_shape (N.pos y)) as [Hy _].
    rewrite ?dash_append, !append_cons. intros [= Heq].
    by rewrite (digits_then_dash _ _ _ _ Hx Hy Heq).
Qed.

(** X20. Generated keys do not collide across owners or across clock
    ticks: two owners (uuids) never get the same key, and one owner
    never gets the same key at two different values of [Date.now()],
    whatever the random parts and the file names are. *)
Theorem storage_keys_distinct
    (u1 u2 : User.t) (e1 e2 : Entropy) (f1 f2 : File.t) :
  (is_uuid (User.id u1) = true → is_uuid (User.id u2) = true →
   User.id u1 ≠ User.id u2 →
   filePath u1 e1 f1 ≠ filePath u2 e2 f2) ∧
  (now e1 ≠ now e2 → filePath u1 e1 f1 ≠ filePath u1 e2 f2).
Proof.
  split.
  - intros H1 H2 Hne Heq. apply Hne.
    assert (first_segment (filePath u1 e1 f1) = Some (User.id u1)) as Hs1
      by (unfold filePath; by apply first_segment_append, uuid_no_slash).
    assert (first_segment (filePath u2 e2 f2) = Some (User.id u2)) as Hs2
      by (unfold filePath; by apply first_segment_append, uuid_no_slash).
    rewrite Heq in Hs1. congruence.
  - intros Hne Heq. apply Hne. unfold filePath, fileName in Heq.
    apply (inj (String.append (User.id u1))) in Heq.
    rewrite !append_cons, !append_nil_l in Heq.
    injection Heq as Heq. by apply timestamp_recoverable in Heq.
Qed.

Lemma storage_keys_distinct_witness :
  filePath alice entropy0 photo
  ≠ filePath alice {| now := 1700000000001; random36 := "0.4fzyo82mvyr" |} photo.
Proof.
  refine (proj2 (storage_keys_distinct alice alice entropy0
                   {| now := 1700000000001; random36 := "0.4fzyo82mvyr" |}
                   photo photo) _).
  vm_compute. discriminate.
Defined.

(** ** Size texts *)

Lemma toFixed1_tenths num den :
  0 < den →
  let n := (20 * num + den) / (2 * den) in
  toFixed1 num den = pretty (n / 10) +:+ "." +:+ pretty (n mod 10) ∧
  0 ≤ n mod 10 ≤ 9 ∧
  - den < 2 * den * n - 20 * num ≤ den.
Proof.
  intros Hden n. split; [done|]. split.
  { pose proof (Z.mod_pos_bound n 10 ltac:(lia)). lia. }
  pose proof (Z.div_mod (20 * num + den) (2 * den) ltac:(lia)) as Hdm.
  pose proof (Z.mod_pos_bound (20 * num + den) (2 * den) ltac:(lia)) as Hb.
  fold n in Hdm. nia.
Qed.

(** X21. What [formatFileSize] shows for a size of whole bytes: below
    1024 the exact count with unit B; from 1024 up to 1 MiB a number of
    tenths of KB, from 1 MiB on (below 2^53, where every whole number
    is a Number) a number of tenths of MB, in both cases
    the tenth nearest to the true value (off by at most a twentieth of
    the unit), printed with one decimal digit. *)
Theorem formatFileSize_nearest_tenth (bytes : Z) :
  (bytes < 1024 → formatFileSize bytes = pretty bytes +:+ " B") ∧
  (1024 ≤ bytes < 1024 * 1024 →
   ∃ n, formatFileSize bytes
        = (pretty (n / 10) +:+ "." +:+ pretty (n mod 10)) +:+ " KB" ∧
        0 ≤ n mod 10 ≤ 9 ∧
        - 512 < 1024 * n - 10 * bytes ≤ 512) ∧
  (1024 * 1024 ≤ bytes < 2 ^ 53 →
   ∃ n, formatFileSize bytes
        = (pretty (n / 10) +:+ "." +:+ pretty (n mod 10)) +:+ " MB" ∧
        0 ≤ n mod 10 ≤ 9 ∧
        - 524288 < 1048576 * n - 10 * bytes ≤ 524288).
Proof.
  unfold formatFileSize. split; [|split]; intros Hb.
  - by rewrite (proj2 (Z.ltb_lt _ _)) by lia.
  - rewrite (proj2 (Z.ltb_ge _ _)), (proj2 (Z.ltb_lt _ _)) by lia.
    destruct (toFixed1_tenths bytes 1024 ltac:(lia)) as (-> & Hd & Hn).
    eexists. split; [done|]. split; [done|]. lia.
  - rewrite !(proj2 (Z.ltb_ge _ _)) by lia.
    destruct (toFixed1_tenths bytes (1024 * 1024) ltac:(lia)) as (-> & Hd & Hn).
    eexists. split; [done|]. split; [done|]. lia.
Qed.

Lemma formatFileSize_nearest_tenth_witness :
  formatFileSize 1000 = pretty 1000 +:+ " B".
Proof.
  refine (proj1 (formatFileSize_nearest_tenth 1000) _). lia.
Defined.

(** X22. The KB range does not hand over to MB at one thousand: every
    size from 1048525 bytes up to one byte below 1 MiB is shown as
    "1024.0 KB", and 1 MiB itself as "1.0 MB". *)
Theorem formatFileSize_kilobyte_ceiling (bytes : Z) :
  (1048525 ≤ bytes < 1048576 → formatFileSize bytes = "1024.0 KB") ∧
  formatFileSize 1048576 = "1.0 MB" ∧
  formatFileSize 1048524 = "1023.9 KB".
Proof.
  split; [|split; vm_compute; reflexivity].
  intros Hb. unfold formatFileSize, toFixed1.
  rewrite (proj2 (Z.ltb_ge _ _)), (proj2 (Z.ltb_lt _ _)) by lia.
  assert ((20 * bytes + 1024) / (2 * 1024) = 10240) as ->.
  { symmetry. apply (Z.div_unique _ _ _ (20 * bytes + 1024 - 2048 * 10240)); lia. }
  vm_compute. reflexivity.
Qed.

Lemma formatFileSize_kilobyte_ceiling_witness :
  formatFileSize 1048575 = "1024.0 KB".
Proof.
  refine (proj1 (formatFileSize_kilobyte_ceiling 1048575) _). lia.
Defined.
